(** * The dashboard's in-memory tabular data engine

    A shallow embedding of [src/app/api/mistral/route.ts]: the server route
    [POST] and the client component [Page] with its derived values
    ([metrics] effect, [filteredData], [paginatedRows], [totalPages],
    [visiblePages], [chartData], [renderChart], [interpretInstruction]),
    its handlers ([handleFileUpload], [handleSort], the filter, column and
    page controls) and exports ([exportToCSV], [exportToPDF]); and of the
    theme toggle of [src/components/ui/Header.tsx].  The effect that
    simulates live metrics with [Math.random] is not modelled.

    Conventions.
    - A JavaScript number is an IEEE 754 binary64 value: Rocq's primitive
      [float].  Integers that the code only uses as array lengths, indices
      and page numbers are [Z] or [nat].
    - A JavaScript string is a [string].
    - What the program takes from its host (the ECMAScript library and the
      browser) and does not define itself is the interface [Host]; the
      theorems quantify over the host, and [refHost] is a small executable
      one for the examples.
    - React state is a record; an effect or a handler is a function from
      the state (and its input) to the new state.
    - The header of the table is a list of texts, as the source types it
      ([columns: string[]]) and as every CSV file gives it.  A spreadsheet
      whose header row holds a number or a blank cell is outside the
      model: there [col.toLowerCase()] throws in the date stage once a
      date bound is set, and [filteredData] returns [[]] through its
      [catch].  Every statement about [columns] is about a header of
      texts. *)

From Stdlib Require Import ZArith QArith Qround Floats Ascii String Sorted.
From stdpp Require Import base option list strings gmap.

Local Open Scope Z_scope.

(** ** JavaScript numbers *)

Module Number.

Definition NaN : float := nan.
Definition zero : float := 0%float.

(** [x > 0] on numbers; false when [x] is NaN. *)
Definition positive (x : float) : bool := (0 <? x)%float.

(** ToBoolean on a number: [+0], [-0] and NaN are falsy. *)
Definition truthy (x : float) : bool := negb ((x =? 0)%float || is_nan x).

(** [x || 0]. *)
Definition or_zero (x : float) : float := if truthy x then x else zero.

(** An integer as a number (exact below 2^53). *)
Definition of_Z (z : Z) : float :=
  if z <? 0 then (- of_uint63 (Uint63.of_Z (- z)))%float
  else of_uint63 (Uint63.of_Z z).

(** ToIntegerOrInfinity on a finite number (truncation towards zero);
    [None] for NaN and the infinities. *)
Definition truncate (x : float) : option Z :=
  match Prim2SF x with
  | S754_zero _ => Some 0
  | S754_finite s m e =>
      Some (cond_Zopp s (if 0 <=? e then Z.shiftl (Z.pos m) e
                         else Z.shiftr (Z.pos m) (- e)))
  | S754_infinity _ | S754_nan => None
  end.

End Number.

(** ** JavaScript strings *)

Module JSString.

(** ToBoolean on a string: only the empty string is falsy. *)
Definition truthy (s : string) : bool :=
  match s with EmptyString => false | String _ _ => true end.

(** [s.includes(t)]: [t] occurs in [s] as a contiguous substring. *)
Fixpoint includes (s t : string) : bool :=
  String.prefix t s ||
  match s with
  | EmptyString => false
  | String _ s' => includes s' t
  end.

End JSString.

(** ** The host

    Functions of the ECMAScript library whose result depends on tables the
    program does not contain (Unicode case mapping, collation, number and
    date syntax).  They are total: none of them throws on a string. *)

Class Host := {
  (** [String.prototype.toLowerCase] *)
  toLowerCase : string -> string;
  (** [String.prototype.localeCompare]: negative, zero or positive *)
  localeCompare : string -> string -> float;
  (** ToNumber on a string (StringToNumber); NaN when it is no numeric literal *)
  StringToNumber : string -> float;
  (** ToString on a number (Number::toString) *)
  NumberToString : float -> string;
  (** [parseFloat] and [parseInt] on a string *)
  parseFloat_string : string -> float;
  parseInt_string : string -> float;
  (** [Date.parse]: the time value in milliseconds, [None] for NaN *)
  Date_parse : string -> option Z;
}.

(** What the theorems on sorting need from the host's collation: two
    strings are never each greater than the other. *)
Definition HostLaws (H : Host) : Prop :=
  forall s t : string,
    Number.positive (localeCompare s t) = true ->
    Number.positive (localeCompare t s) = false.

(** ** Control flow: [try] / [catch] *)

Inductive Completion (A : Type) : Type :=
  | Normal (a : A)
  | Throw (message : string).
Arguments Normal {A} a.
Arguments Throw {A} message.

Definition bind_completion {A B} (c : Completion A) (k : A -> Completion B)
    : Completion B :=
  match c with
  | Normal a => k a
  | Throw m => Throw m
  end.

(** [try { body } catch (error) { handler }], both returning a value. *)
Definition try_catch {A} (body : Completion A) (handler : string -> A) : A :=
  match body with
  | Normal a => a
  | Throw m => handler m
  end.

(** ** Data model *)

(** A cell of the uploaded table ([any] in the source): the CSV parser
    gives strings, the spreadsheet parser strings and numbers.  [CEmpty] is
    [undefined]: what reading a blank cell of a spreadsheet row gives (the
    parser leaves a hole in the row's array there) and what reading beyond
    the end of a short row gives.  A row is the list of its cells by
    index, a hole being an element [CEmpty]; the methods that skip holes
    ([some]) skip these elements. *)
Inductive Cell : Type :=
  | CText (s : string)
  | CNumber (x : float)
  | CEmpty.

Definition Row : Type := list Cell.

(** [row[i]] for an integer [i]: [undefined] out of range (also for the
    [-1] that [indexOf] returns for a missing column). *)
Definition Row_get (row : Row) (i : Z) : Cell :=
  if i <? 0 then CEmpty else default CEmpty (row !! Z.to_nat i).

(** A Date object is its time value: milliseconds since the epoch, or
    [None] for the NaN of an invalid date. *)
Definition Date : Type := option Z.

Section Coercions.
Context `{Host}.

(** [String(cell)] *)
Definition ToString (v : Cell) : string :=
  match v with
  | CText s => s
  | CNumber x => NumberToString x
  | CEmpty => "undefined"
  end.

(** ToNumber, as applied by [isNaN], [Number(...)] and the operator [-] *)
Definition ToNumber (v : Cell) : float :=
  match v with
  | CText s => StringToNumber s
  | CNumber x => x
  | CEmpty => Number.NaN
  end.

Definition isNaN (v : Cell) : bool := is_nan (ToNumber v).

Definition parseFloat (v : Cell) : float := parseFloat_string (ToString v).
Definition parseInt (v : Cell) : float := parseInt_string (ToString v).

(** TimeClip: a finite number within 8.64e15 ms of the epoch, truncated. *)
Definition TimeClip (x : float) : Date :=
  t ← Number.truncate x;
  if Z.abs t <=? 8640000000000000 then Some t else None.

(** [new Date(value)]: a string is parsed, anything else is converted
    with ToNumber.  It never throws; a value that is no date gives the
    invalid date. *)
Definition Date_new (v : Cell) : Date :=
  match v with
  | CText s => Date_parse s
  | CNumber x => TimeClip x
  | CEmpty => None
  end.

(** [a >= b] and [a <= b] on Date objects: the time values are compared
    as numbers, and a comparison with NaN is false. *)
Definition Date_ge (a b : Date) : bool :=
  match a, b with
  | Some x, Some y => y <=? x
  | _, _ => false
  end.

Definition Date_le (a b : Date) : bool :=
  match a, b with
  | Some x, Some y => x <=? y
  | _, _ => false
  end.

End Coercions.

(** ** [Array.prototype] *)

Module Array.

(** [xs.slice(start, end)] for integers [start] and [end]: a negative
    index counts from the end, both are clamped to [0, length]. *)
Definition relative_index (len i : Z) : Z :=
  if i <? 0 then Z.max (len + i) 0 else Z.min i len.

Definition slice {A} (xs : list A) (start stop : Z) : list A :=
  let len := Z.of_nat (length xs) in
  let k := relative_index len start in
  let final := relative_index len stop in
  take (Z.to_nat (Z.max (final - k) 0)) (drop (Z.to_nat k) xs).

(** [xs.indexOf(x)] on strings: the first index, [-1] when absent. *)
Fixpoint indexOf (xs : list string) (x : string) : Z :=
  match xs with
  | [] => -1
  | y :: ys =>
      if String.eqb y x then 0
      else let i := indexOf ys x in if i <? 0 then -1 else i + 1
  end.

(** [xs.includes(x)] on strings *)
Definition includes (xs : list string) (x : string) : bool :=
  existsb (fun y => String.eqb y x) xs.

(** [xs.findIndex(p)] *)
Fixpoint findIndex {A} (p : A -> bool) (xs : list A) : Z :=
  match xs with
  | [] => -1
  | y :: ys =>
      if p y then 0
      else let i := findIndex p ys in if i <? 0 then -1 else i + 1
  end.

(** [Array.from({ length: n }, (_, i) => f i)]: a length that is not
    positive gives the empty array. *)
Definition from_length {A} (n : Z) (f : Z -> A) : list A :=
  List.map (fun i => f (Z.of_nat i)) (seq 0 (Z.to_nat n)).

(** [xs.sort(comparefn)].  ECMAScript requires a stable sort and reads
    only the sign of [comparefn]'s result, NaN counting as zero.  The
    model is the stable insertion sort: an element moves past exactly the
    elements it is greater than, until the first one it is not.  On a
    consistent comparator this is the one result ECMAScript allows
    ([sort_unique] below); on any other comparator ECMAScript leaves the
    order to the implementation, and this is one such order (module [V8]
    below has the order of that engine, which is another). *)
Fixpoint insert {A} (comparefn : A -> A -> float) (x : A) (xs : list A)
    : list A :=
  match xs with
  | [] => [x]
  | y :: ys =>
      if Number.positive (comparefn x y) then y :: insert comparefn x ys
      else x :: y :: ys
  end.

Definition sort {A} (comparefn : A -> A -> float) (xs : list A) : list A :=
  foldr (insert comparefn) [] xs.

(** [xs.slice(start)]: to the end of the array. *)
Definition slice_from {A} (xs : list A) (start : Z) : list A :=
  slice xs start (Z.of_nat (length xs)).

End Array.

(** ** [Array.prototype.sort] in V8

    The order ECMAScript leaves to the implementation, for the engine of
    Node.js and Chrome: its TimSort on an array of fewer than 64 elements,
    which is one run.  [CountAndMakeRun] takes the longest run at the start
    of the array that is ascending ([order >= 0] from element to element)
    or strictly descending ([order < 0]), and reverses a descending one;
    [BinaryInsertionSort] then inserts each remaining element into the
    sorted part at the place a binary search gives.  [order] is the result
    of [comparefn] with NaN turned into 0.  A longer array is cut into
    several runs that are merged; that is not modelled ([None]). *)
Module V8.

(** [order < 0] *)
Definition negative (order : float) : bool := (order <? 0)%float.

Section TimSort.
Context {A : Type} (comparefn : A -> A -> float).

(** The loop of [CountAndMakeRun] when the run is ascending: the elements
    that continue the run after [previous], and the rest of the array. *)
Fixpoint ascendingRun (previous : A) (xs : list A) : list A * list A :=
  match xs with
  | [] => ([], [])
  | current :: rest =>
      if negative (comparefn current previous) then ([], xs)
      else
        let '(run, rest') := ascendingRun current rest in
        (current :: run, rest')
  end.

(** The same loop when the run is descending. *)
Fixpoint descendingRun (previous : A) (xs : list A) : list A * list A :=
  match xs with
  | [] => ([], [])
  | current :: rest =>
      if negative (comparefn current previous) then
        let '(run, rest') := descendingRun current rest in
        (current :: run, rest')
      else ([], xs)
  end.

(** [CountAndMakeRun(0, length)]: the first run, in ascending order, and
    the rest of the array. *)
Definition countAndMakeRun (xs : list A) : list A * list A :=
  match xs with
  | [] => ([], [])
  | [x] => ([x], [])
  | elementHigh :: elementLow :: rest =>
      if negative (comparefn elementLow elementHigh) then
        let '(run, rest') := descendingRun elementLow rest in
        (rev (elementHigh :: elementLow :: run), rest')
      else
        let '(run, rest') := ascendingRun elementLow rest in
        (elementHigh :: elementLow :: run, rest')
  end.

(** The binary search of [BinaryInsertionSort]:
    [while (left < right) { mid = left + ((right - left) >> 1); ... }].
    [steps] bounds the iterations; [right - left] is enough. *)
Fixpoint insertionPoint (pivot : A) (sorted : list A) (left right : nat)
    (steps : nat) : nat :=
  match steps with
  | O => left
  | S steps' =>
      if (left <? right)%nat then
        let mid := (left + Nat.div2 (right - left))%nat in
        match sorted !! mid with
        | Some x =>
            if negative (comparefn pivot x)
            then insertionPoint pivot sorted left mid steps'
            else insertionPoint pivot sorted (mid + 1) right steps'
        | None => left
        end
      else left
  end.

(** One round of [BinaryInsertionSort]: [pivot], the element after the
    sorted part, is moved to its insertion point. *)
Definition binaryInsert (sorted : list A) (pivot : A) : list A :=
  let left :=
    insertionPoint pivot sorted 0 (length sorted) (length sorted) in
  take left sorted ++ pivot :: drop left sorted.

Definition sort (xs : list A) : option (list A) :=
  if (length xs <? 64)%nat then
    let '(run, rest) := countAndMakeRun xs in
    Some (foldl binaryInsert run rest)
  else None.

End TimSort.

End V8.

(** ** JSON values, as [res.json()] returns them *)

#[warnings="-register-all"]
Inductive Json : Type :=
  | JNull
  | JBool (b : bool)
  | JNumber (x : float)
  | JString (s : string)
  | JArray (items : list Json)
  | JObject (fields : list (string * Json)).

Module JSON.

(** ToBoolean *)
Definition truthy (v : Json) : bool :=
  match v with
  | JNull => false
  | JBool b => b
  | JNumber x => Number.truthy x
  | JString s => JSString.truthy s
  | JArray _ | JObject _ => true
  end.

Fixpoint lookup (fields : list (string * Json)) (key : string) : option Json :=
  match fields with
  | [] => None
  | (k, v) :: rest => if String.eqb k key then Some v else lookup rest key
  end.

(** [result.key] for one of the keys the program reads ([chartType],
    [xColumn], [yColumn]): reading a property of [null] throws a TypeError,
    an object gives the property or [undefined] ([None]), and a boolean, a
    number, a string or an array has no property of these names. *)
Definition get (result : Json) (key : string) : Completion (option Json) :=
  match result with
  | JNull => Throw "TypeError: Cannot read properties of null"
  | JObject fields => Normal (lookup fields key)
  | _ => Normal None
  end.

(** ToBoolean of a property that may be [undefined] *)
Definition truthy_opt (v : option Json) : bool :=
  match v with
  | Some j => truthy j
  | None => false
  end.

End JSON.

(** ** The state of the [Page] component *)

Record Metrics : Type := {
  revenue : float;
  users : float;
  conversions : float;
  growth : float;
}.

Inductive SortDirection : Type := asc | desc.

Record DateRange : Type := {
  start : string;
  stop : string;   (* the source's field [end] *)
}.

(** One field per [useState] of [Page] that the data engine reads or
    writes ([isExporting] only drives the export button).  [chartType],
    [xColumn] and [yColumn] are declared as strings and assigned from the
    untyped [result] of the resolver, so at run time they hold a JSON
    value. *)
Record State : Type := {
  data : list Row;
  columns : list string;
  xColumn : Json;
  yColumn : Json;
  chartType : Json;
  instruction : string;
  metrics : Metrics;
  filterText : string;
  sortColumn : option nat;
  sortDirection : SortDirection;
  currentPage : Z;
  dateRange : DateRange;
  selectedColumns : list string;
  isLoading : bool;
}.

Definition zeroMetrics : Metrics :=
  {| revenue := 0; users := 0; conversions := 0; growth := 0 |}.

(** The initial values of the [useState] calls. *)
Definition initialState : State := {|
  data := [];
  columns := [];
  xColumn := JString "";
  yColumn := JString "";
  chartType := JString "bar";
  instruction := "";
  metrics := zeroMetrics;
  filterText := "";
  sortColumn := None;
  sortDirection := asc;
  currentPage := 1;
  dateRange := {| start := ""; stop := "" |};
  selectedColumns := [];
  isLoading := false;
|}.

Definition rowsPerPage : Z := 10.

Definition setMetrics (m : Metrics) (st : State) : State := {|
  data := data st; columns := columns st; xColumn := xColumn st;
  yColumn := yColumn st; chartType := chartType st;
  instruction := instruction st; metrics := m; filterText := filterText st;
  sortColumn := sortColumn st; sortDirection := sortDirection st;
  currentPage := currentPage st; dateRange := dateRange st;
  selectedColumns := selectedColumns st; isLoading := isLoading st |}.

Definition setChartType (v : Json) (st : State) : State := {|
  data := data st; columns := columns st; xColumn := xColumn st;
  yColumn := yColumn st; chartType := v;
  instruction := instruction st; metrics := metrics st;
  filterText := filterText st;
  sortColumn := sortColumn st; sortDirection := sortDirection st;
  currentPage := currentPage st; dateRange := dateRange st;
  selectedColumns := selectedColumns st; isLoading := isLoading st |}.

Definition setXColumn (v : Json) (st : State) : State := {|
  data := data st; columns := columns st; xColumn := v;
  yColumn := yColumn st; chartType := chartType st;
  instruction := instruction st; metrics := metrics st;
  filterText := filterText st;
  sortColumn := sortColumn st; sortDirection := sortDirection st;
  currentPage := currentPage st; dateRange := dateRange st;
  selectedColumns := selectedColumns st; isLoading := isLoading st |}.

Definition setYColumn (v : Json) (st : State) : State := {|
  data := data st; columns := columns st; xColumn := xColumn st;
  yColumn := v; chartType := chartType st;
  instruction := instruction st; metrics := metrics st;
  filterText := filterText st;
  sortColumn := sortColumn st; sortDirection := sortDirection st;
  currentPage := currentPage st; dateRange := dateRange st;
  selectedColumns := selectedColumns st; isLoading := isLoading st |}.

Definition setIsLoading (b : bool) (st : State) : State := {|
  data := data st; columns := columns st; xColumn := xColumn st;
  yColumn := yColumn st; chartType := chartType st;
  instruction := instruction st; metrics := metrics st;
  filterText := filterText st;
  sortColumn := sortColumn st; sortDirection := sortDirection st;
  currentPage := currentPage st; dateRange := dateRange st;
  selectedColumns := selectedColumns st; isLoading := b |}.

(** [setInstruction] and [setFilterText], the handlers of the two text
    inputs. *)
Definition setInstruction (text : string) (st : State) : State := {|
  data := data st; columns := columns st; xColumn := xColumn st;
  yColumn := yColumn st; chartType := chartType st;
  instruction := text; metrics := metrics st;
  filterText := filterText st;
  sortColumn := sortColumn st; sortDirection := sortDirection st;
  currentPage := currentPage st; dateRange := dateRange st;
  selectedColumns := selectedColumns st; isLoading := isLoading st |}.

Definition setFilterText (text : string) (st : State) : State := {|
  data := data st; columns := columns st; xColumn := xColumn st;
  yColumn := yColumn st; chartType := chartType st;
  instruction := instruction st; metrics := metrics st;
  filterText := text;
  sortColumn := sortColumn st; sortDirection := sortDirection st;
  currentPage := currentPage st; dateRange := dateRange st;
  selectedColumns := selectedColumns st; isLoading := isLoading st |}.

Definition setSortColumn (column : option nat) (st : State) : State := {|
  data := data st; columns := columns st; xColumn := xColumn st;
  yColumn := yColumn st; chartType := chartType st;
  instruction := instruction st; metrics := metrics st;
  filterText := filterText st;
  sortColumn := column; sortDirection := sortDirection st;
  currentPage := currentPage st; dateRange := dateRange st;
  selectedColumns := selectedColumns st; isLoading := isLoading st |}.

Definition setSortDirection (direction : SortDirection) (st : State)
    : State := {|
  data := data st; columns := columns st; xColumn := xColumn st;
  yColumn := yColumn st; chartType := chartType st;
  instruction := instruction st; metrics := metrics st;
  filterText := filterText st;
  sortColumn := sortColumn st; sortDirection := direction;
  currentPage := currentPage st; dateRange := dateRange st;
  selectedColumns := selectedColumns st; isLoading := isLoading st |}.

(** [handleSort]: a click on the header of the sorted column flips the
    direction, a click on another header sorts by it, ascending. *)
Definition handleSort (colIndex : nat) (st : State) : State :=
  if decide (sortColumn st = Some colIndex) then
    setSortDirection
      (match sortDirection st with asc => desc | desc => asc end) st
  else setSortDirection asc (setSortColumn (Some colIndex) st).

(** The upload handlers' [setData], [setColumns] and [setSelectedColumns]:
    the parsed table replaces the old one, row 0 being the header. *)
Definition setTable (table : list Row) (header : list string) (st : State)
    : State := {|
  data := table; columns := header; xColumn := xColumn st;
  yColumn := yColumn st; chartType := chartType st;
  instruction := instruction st; metrics := metrics st;
  filterText := filterText st;
  sortColumn := sortColumn st; sortDirection := sortDirection st;
  currentPage := currentPage st; dateRange := dateRange st;
  selectedColumns := header; isLoading := isLoading st |}.

(** ** The [Page] component *)

Section Page.
Context `{Host}.

(** *** Metrics ([useEffect] on [data] and [columns]) *)

(** [rows.reduce((sum, row) => sum + (parse(row[index]) || 0), 0)] *)
Definition sumColumn (parse : Cell -> float) (index : Z) (rows : list Row)
    : float :=
  fold_left
    (fun sum row => (sum + Number.or_zero (parse (Row_get row index)))%float)
    rows Number.zero.

Definition computeMetrics (header : list string) (rows : list Row) : Metrics :=
  let revenueIndex := Array.indexOf header "Revenue" in
  let usersIndex := Array.indexOf header "Users" in
  let conversionsIndex := Array.indexOf header "Conversions" in
  let growthIndex := Array.indexOf header "Growth" in
  let totalRevenue := sumColumn parseFloat revenueIndex rows in
  let totalUsers := sumColumn parseInt usersIndex rows in
  let totalConversions := sumColumn parseInt conversionsIndex rows in
  let avgGrowth :=
    (sumColumn parseFloat growthIndex rows
     / Number.of_Z (Z.of_nat (length rows)))%float in
  {| revenue := totalRevenue; users := totalUsers;
     conversions := totalConversions; growth := avgGrowth |}.

(** The effect runs its body only under the guard
    [data.length > 1 && columns.length > 0]; otherwise no [setMetrics] is
    called and the state keeps the metrics it had.  Nothing in the body
    throws on a table of cells, so the [catch] (which would set the zero
    metrics) is never entered.  The interval timer that adds random
    amounts to the metrics every five seconds is not part of the model. *)
Definition metricsEffect (st : State) : State :=
  if (1 <? length (data st))%nat && (0 <? length (columns st))%nat then
    try_catch
      (let header := columns st in
       let rows := Array.slice_from (data st) 1 in
       Normal (setMetrics (computeMetrics header rows) st))
      (fun _ => setMetrics zeroMetrics st)
  else st.

(** An upload followed by the effect it triggers. *)
Definition upload (table : list Row) (header : list string) (st : State)
    : State :=
  metricsEffect (setTable table header st).

(** *** [filteredData] *)

(** Text-based filtering.  [row.some] calls its callback on the cells the
    row holds and skips a hole, so a blank cell of a spreadsheet row is
    not searched (it is not the text "undefined"). *)
Definition textMatches (text : string) (row : Row) : bool :=
  existsb
    (fun cell =>
       match cell with
       | CEmpty => false
       | _ =>
           JSString.includes (toLowerCase (ToString cell)) (toLowerCase text)
       end)
    row.

Definition textFilter (st : State) (rows : list Row) : list Row :=
  if JSString.truthy (filterText st) then
    List.filter (textMatches (filterText st)) rows
  else rows.

(** Date range filtering.  The callback of [columns.findIndex], on a
    header cell that is a text (see the conventions: on any other cell
    [col.toLowerCase()] throws). *)
Definition isDateColumn (col : string) : bool :=
  JSString.includes (toLowerCase col) "date"
  || JSString.includes (toLowerCase col) "time".

(** The callback of [rows.filter] in the date stage.  The [try] body
    builds three Date objects and compares them; none of these steps
    throws, so the body is a [Normal] completion on every row. *)
Definition dateInRange (range : DateRange) (dateColumnIndex : Z) (row : Row)
    : bool :=
  try_catch
    (let dateValue := Date_new (Row_get row dateColumnIndex) in
     let startDate :=
       if JSString.truthy (start range)
       then Some (Date_new (CText (start range))) else None in
     let endDate :=
       if JSString.truthy (stop range)
       then Some (Date_new (CText (stop range))) else None in
     Normal
       match startDate, endDate with
       | Some s, Some e => Date_ge dateValue s && Date_le dateValue e
       | Some s, None => Date_ge dateValue s
       | None, Some e => Date_le dateValue e
       | None, None => true
       end)
    (fun _ => true (* Include row if date parsing fails *)).

Definition dateFilter (st : State) (rows : list Row) : list Row :=
  if JSString.truthy (start (dateRange st))
     || JSString.truthy (stop (dateRange st)) then
    let dateColumnIndex := Array.findIndex isDateColumn (columns st) in
    if negb (dateColumnIndex =? -1) then
      List.filter (dateInRange (dateRange st) dateColumnIndex) rows
    else rows
  else rows.

(** Column selection filtering *)
Definition columnSelection (st : State) (rows : list Row) : list Row :=
  if (0 <? length (selectedColumns st))%nat
     && (length (selectedColumns st) <? length (columns st))%nat then
    let selectedIndices :=
      List.map (fun col => Array.indexOf (columns st) col)
        (selectedColumns st) in
    List.map (fun row => List.map (fun i => Row_get row i) selectedIndices)
      rows
  else rows.

(** Sorting: the comparator given to [sort] *)
Definition compareRows (direction : SortDirection) (column : nat) (a b : Row)
    : float :=
  try_catch
    (let valA := Row_get a (Z.of_nat column) in
     let valB := Row_get b (Z.of_nat column) in
     if negb (isNaN valA) && negb (isNaN valB) then
       Normal
         match direction with
         | asc => (ToNumber valA - ToNumber valB)%float
         | desc => (ToNumber valB - ToNumber valA)%float
         end
     else
       Normal
         match direction with
         | asc => localeCompare (ToString valA) (ToString valB)
         | desc => localeCompare (ToString valB) (ToString valA)
         end)
    (fun _ => Number.zero).

(** [rows = [...rows].sort(...)], by value: the sorted copy. *)
Definition sortRows (st : State) (rows : list Row) : list Row :=
  match sortColumn st with
  | Some column => Array.sort (compareRows (sortDirection st) column) rows
  | None => rows
  end.

(** The same statement as V8 runs it. *)
Definition sortRows_V8 (st : State) (rows : list Row) : option (list Row) :=
  match sortColumn st with
  | Some column => V8.sort (compareRows (sortDirection st) column) rows
  | None => Some rows
  end.

Definition filteredData (st : State) : list Row :=
  try_catch
    (let rows := Array.slice_from (data st) 1 in
     let rows := textFilter st rows in
     let rows := dateFilter st rows in
     let rows := columnSelection st rows in
     let rows := sortRows st rows in
     Normal rows)
    (fun _ => []).

(** *** Pagination *)

Definition paginatedRows (filteredData : list Row) (currentPage : Z)
    : list Row :=
  let start := (currentPage - 1) * rowsPerPage in
  Array.slice filteredData start (start + rowsPerPage).

(** [Math.ceil(filteredData.length / rowsPerPage)].  The quotient is taken
    exactly; for an array length (below 2^32) the binary64 quotient has the
    same ceiling. *)
Definition totalPages (filteredData : list Row) : Z :=
  Qceiling (inject_Z (Z.of_nat (length filteredData)) / inject_Z rowsPerPage).

Definition visiblePages (currentPage totalPages : Z) : list Z :=
  let maxPagesToShow := 5 in
  let start := Z.max 1 (currentPage - 2) in
  let stop := Z.min totalPages (start + maxPagesToShow - 1) in
  let start :=
    if stop - start <? maxPagesToShow - 1
    then Z.max 1 (stop - maxPagesToShow + 1) else start in
  Array.from_length (stop - start + 1) (fun i => start + i).

End Page.

(** *** Chart data *)

(** [columns.includes(v)] and [columns.indexOf(v)] for a run-time value
    [v]: an array of strings contains nothing but strings. *)
Definition columns_includes (columns : list string) (v : Json) : bool :=
  match v with
  | JString s => Array.includes columns s
  | _ => false
  end.

Definition columns_indexOf (columns : list string) (v : Json) : Z :=
  match v with
  | JString s => Array.indexOf columns s
  | _ => -1
  end.

(** The object [chartData], without its constant colours and widths. *)
Record ChartData : Type := {
  labels : list Cell;
  dataset_label : Json;
  dataset_data : list float;
}.

(** What [renderChart] returns: a chart component applied to [chartData]. *)
Inductive ChartComponent : Type := Bar | Line | Pie | Doughnut.

Section Chart.
Context `{Host}.

Definition chartData (st : State) : ChartData := {|
  labels :=
    if JSON.truthy (xColumn st) && columns_includes (columns st) (xColumn st)
    then
      List.map
        (fun row => Row_get row (columns_indexOf (columns st) (xColumn st)))
        (Array.slice_from (data st) 1)
    else [];
  dataset_label := yColumn st;
  dataset_data :=
    if JSON.truthy (yColumn st) && columns_includes (columns st) (yColumn st)
    then
      List.map
        (fun row =>
           ToNumber (Row_get row (columns_indexOf (columns st) (yColumn st))))
        (Array.slice_from (data st) 1)
    else [];
|}.

(** [switch (chartType)]: strict equality with the four literals, and
    [default] shares the branch of ["bar"]. *)
Definition chartComponent (chartType : Json) : ChartComponent :=
  match chartType with
  | JString s =>
      if String.eqb s "line" then Line
      else if String.eqb s "pie" then Pie
      else if String.eqb s "donut" then Doughnut
      else Bar
  | _ => Bar
  end.

Definition renderChart (st : State) : ChartComponent * ChartData :=
  (chartComponent (chartType st), chartData st).

End Chart.

(** *** Natural-language chart generation *)

(** The HTTP response of [fetch("/api/mistral")]: [ok] is "status in
    200..299"; [body] is what [res.json()] resolves to, [None] when the
    body is not JSON and [res.json()] rejects. *)
Record Response : Type := {
  ok : bool;
  status : Z;
  body : option Json;
}.

(** The alerts [interpretInstruction] can raise. *)
Inductive Alert : Type :=
  | PleaseUpload          (* "Please upload a dataset first." *)
  | NotUnderstood (result : Json)
                          (* "Couldn't understand the instruction: ..." *)
  | ProcessingError.      (* "Error processing instruction. Please try again." *)

(** How a run of [interpretInstruction] ends: the selection was applied,
    or the user was alerted (a resolution error). *)
Inductive Outcome : Type :=
  | Applied
  | Alerted (a : Alert).

(** [res.json()] *)
Definition Response_json (res : Response) : Completion Json :=
  match body res with
  | Some result => Normal result
  | None => Throw "SyntaxError: Unexpected token"
  end.

(** [result.chartType && result.xColumn && result.yColumn], read left to
    right with short circuit; on success the three values read. *)
Definition readSelection (result : Json)
    : Completion (option (Json * Json * Json)) :=
  bind_completion (JSON.get result "chartType") (fun c =>
  if negb (JSON.truthy_opt c) then Normal None else
  bind_completion (JSON.get result "xColumn") (fun x =>
  if negb (JSON.truthy_opt x) then Normal None else
  bind_completion (JSON.get result "yColumn") (fun y =>
  if negb (JSON.truthy_opt y) then Normal None else
  match c, x, y with
  | Some c, Some x, Some y => Normal (Some (c, x, y))
  | _, _, _ => Normal None
  end))).

(** [interpretInstruction], given how the awaited [fetch] completes
    ([Throw] for a network failure).  The [finally] block runs on every
    path, the early [return] included. *)
Definition interpretInstruction (fetched : Completion Response) (st : State)
    : State * Outcome :=
  let '(st, outcome) :=
    if negb (JSString.truthy (instruction st))
       || (length (columns st) =? 0)%nat
    then (st, Alerted PleaseUpload)
    else
      let st := setIsLoading true st in
      try_catch
        (bind_completion fetched (fun res =>
         if negb (ok res) then Throw "HTTP error!"
         else
           bind_completion (Response_json res) (fun result =>
           bind_completion (readSelection result) (fun selection =>
           match selection with
           | Some (c, x, y) =>
               Normal
                 (setYColumn y (setXColumn x (setChartType c st)), Applied)
           | None => Normal (st, Alerted (NotUnderstood result))
           end))))
        (fun _ => (st, Alerted ProcessingError))
  in
  (setIsLoading false st, outcome).

(** *** The server route [POST /api/mistral] *)

(** What the call to the language service gives the route: the [fetch]
    rejects, or it answers with a status; [content] is the result of
    [JSON.parse] on the text of the first choice, [None] when that text is
    missing or is not JSON. *)
Inductive ServiceReply : Type :=
  | ServiceUnreachable
  | ServiceAnswer (ok : bool) (text : string) (content : option Json).

Definition errorResponse (fields : list (string * Json)) : Response :=
  {| ok := false; status := 500; body := Some (JObject fields) |}.

(** [request] is the parsed request body, [None] when [req.json()]
    rejects; [apiKey] is [process.env.MISTRAL_API_KEY]. *)
Definition POST (request : option (string * list string))
    (apiKey : option string) (reply : ServiceReply) : Response :=
  match request with
  | None => errorResponse [("error", JString "Failed to interpret instruction")]
  | Some _ =>
      if negb (from_option JSString.truthy false apiKey) then
        errorResponse [("error", JString "MISTRAL_API_KEY is not set")]
      else
        match reply with
        | ServiceUnreachable =>
            errorResponse
              [("error", JString "Failed to interpret instruction")]
        | ServiceAnswer false text _ =>
            errorResponse
              [("error", JString "Mistral API error");
               ("details", JString text)]
        | ServiceAnswer true _ (Some parsed) =>
            {| ok := true; status := 200; body := Some parsed |}
        | ServiceAnswer true _ None =>
            errorResponse [("error", JString "Invalid JSON response")]
        end
  end.

(** The resolver end to end: the route's response is what the client's
    [fetch] resolves to. *)
Definition resolve (apiKey : option string) (reply : ServiceReply)
    (st : State) : State * Outcome :=
  interpretInstruction
    (Normal (POST (Some (instruction st, columns st)) apiKey reply)) st.

(** ** Arrays by reference

    JavaScript arrays are objects: [sort] reorders the array it is called
    on, while [slice], [filter], [map] and the spread [[...rows]] build a
    new array.  A heap maps references to array contents, and a program is
    a function from the heap to its result and the new heap. *)

Definition Ref : Type := nat.
Definition Heap : Type := gmap nat (list Row).
Definition Prog (A : Type) : Type := Heap -> A * Heap.

#[global] Instance Prog_ret : MRet Prog := fun _ a h => (a, h).
#[global] Instance Prog_bind : MBind Prog :=
  fun _ _ k m h => let '(a, h') := m h in k a h'.

Module ArrayRef.

(** A new array object: a reference the heap does not hold yet. *)
Definition new (xs : list Row) : Prog Ref :=
  fun h => let r := fresh (dom h) in (r, <[r := xs]> h).

Definition read (r : Ref) : Prog (list Row) :=
  fun h => (default [] (h !! r), h).

Definition write (r : Ref) (xs : list Row) : Prog unit :=
  fun h => (tt, <[r := xs]> h).

Definition slice_from (r : Ref) (start : Z) : Prog Ref :=
  xs ← read r; new (Array.slice_from xs start).

Definition filter (p : Row -> bool) (r : Ref) : Prog Ref :=
  xs ← read r; new (List.filter p xs).

Definition map (f : Row -> Row) (r : Ref) : Prog Ref :=
  xs ← read r; new (List.map f xs).

(** [[...rows]] *)
Definition spread (r : Ref) : Prog Ref :=
  xs ← read r; new xs.

(** [rows.sort(comparefn)]: sorts the array in place and returns it. *)
Definition sort (comparefn : Row -> Row -> float) (r : Ref) : Prog Ref :=
  xs ← read r; _ ← write r (Array.sort comparefn xs); mret r.

End ArrayRef.

Section PageRef.
Context `{Host}.

(** The sorting step of [filteredData] on the array [rows]:
    [if (sortColumn !== null) rows = [...rows].sort(...)]. *)
Definition sortStep_ref (st : State) (rows : Ref) : Prog Ref :=
  match sortColumn st with
  | Some column =>
      copy ← ArrayRef.spread rows;
      ArrayRef.sort (compareRows (sortDirection st) column) copy
  | None => mret rows
  end.

(** [filteredData] with [data] held in the array [dataRef]; the variable
    [rows] is rebound at each step, as in the source. *)
Definition filteredData_ref (st : State) (dataRef : Ref) : Prog Ref :=
  rows ← ArrayRef.slice_from dataRef 1;
  rows ← (if JSString.truthy (filterText st)
          then ArrayRef.filter (textMatches (filterText st)) rows
          else mret rows);
  rows ← (if JSString.truthy (start (dateRange st))
             || JSString.truthy (stop (dateRange st)) then
            let dateColumnIndex := Array.findIndex isDateColumn (columns st) in
            if negb (dateColumnIndex =? -1)
            then ArrayRef.filter (dateInRange (dateRange st) dateColumnIndex)
                   rows
            else mret rows
          else mret rows);
  rows ← (if (0 <? length (selectedColumns st))%nat
             && (length (selectedColumns st) <? length (columns st))%nat then
            let selectedIndices :=
              List.map (fun col => Array.indexOf (columns st) col)
                (selectedColumns st) in
            ArrayRef.map
              (fun row => List.map (fun i => Row_get row i) selectedIndices)
              rows
          else mret rows);
  sortStep_ref st rows.

End PageRef.

(** ** A reference host

    An executable host for the examples: ASCII case mapping, comparison of
    strings by code unit, decimal numerals (an optional sign, digits, an
    optional fraction) and ISO dates [YYYY-MM-DD].  On these inputs it
    agrees with ECMAScript; it does not know exponents, hexadecimal
    numerals, [Infinity], other date formats or collation tables. *)

Module RefHost.

Definition code (c : ascii) : Z := Z.of_N (N_of_ascii c).

Definition lower (c : ascii) : ascii :=
  if (65 <=? code c) && (code c <=? 90)
  then ascii_of_N (Z.to_N (code c + 32)) else c.

Fixpoint toLowerCase (s : string) : string :=
  match s with
  | EmptyString => EmptyString
  | String c s' => String (lower c) (toLowerCase s')
  end.

Definition localeCompare (s t : string) : float :=
  match String.compare s t with
  | Lt => (-1)%float
  | Eq => 0%float
  | Gt => 1%float
  end.

Definition isSpace (c : ascii) : bool :=
  (code c =? 32) || (code c =? 9) || (code c =? 10) || (code c =? 13).

Fixpoint skipSpaces (s : string) : string :=
  match s with
  | String c s' => if isSpace c then skipSpaces s' else s
  | EmptyString => EmptyString
  end.

Definition digit (c : ascii) : option Z :=
  if (48 <=? code c) && (code c <=? 57) then Some (code c - 48) else None.

(** The longest prefix of digits: its value continuing [acc], how many
    digits were read, and the rest of the string. *)
Fixpoint readDigits (s : string) (acc : Z) (count : nat) : Z * nat * string :=
  match s with
  | String c s' =>
      match digit c with
      | Some d => readDigits s' (10 * acc + d) (S count)
      | None => (acc, count, s)
      end
  | EmptyString => (acc, count, s)
  end.

Definition readSign (s : string) : bool * string :=
  match s with
  | String "-" s' => (true, s')
  | String "+" s' => (false, s')
  | _ => (false, s)
  end.

Definition signed (negative : bool) (x : float) : float :=
  if negative then (- x)%float else x.

(** A decimal numeral at the start of [s]: its value and the rest. *)
Definition readDecimal (s : string) : option (float * string) :=
  let '(negative, s1) := readSign s in
  let '(whole, n, s2) := readDigits s1 0 0 in
  match s2 with
  | String "." s3 =>
      let '(mantissa, k, s4) := readDigits s3 whole 0 in
      if (n + k =? 0)%nat then None
      else
        Some (signed negative
                (Number.of_Z mantissa / Number.of_Z (10 ^ Z.of_nat k))%float,
              s4)
  | _ =>
      if (n =? 0)%nat then None
      else Some (signed negative (Number.of_Z whole), s2)
  end.

Definition parseFloat_string (s : string) : float :=
  match readDecimal (skipSpaces s) with
  | Some (x, _) => x
  | None => Number.NaN
  end.

Definition parseInt_string (s : string) : float :=
  let '(negative, s1) := readSign (skipSpaces s) in
  let '(whole, n, _) := readDigits s1 0 0 in
  if (n =? 0)%nat then Number.NaN else signed negative (Number.of_Z whole).

Definition StringToNumber (s : string) : float :=
  match skipSpaces s with
  | EmptyString => 0%float
  | s' =>
      match readDecimal s' with
      | Some (x, rest) =>
          match skipSpaces rest with
          | EmptyString => x
          | _ => Number.NaN
          end
      | None => Number.NaN
      end
  end.

(** Decimal digits of a natural number, most significant first. *)
Fixpoint digitsOf (fuel : nat) (n : Z) (acc : string) : string :=
  match fuel with
  | O => acc
  | S fuel' =>
      let acc' := String (ascii_of_N (Z.to_N (48 + n mod 10))) acc in
      if n / 10 =? 0 then acc' else digitsOf fuel' (n / 10) acc'
  end.

Definition integerToString (z : Z) : string :=
  if z <? 0 then String "-" (digitsOf 400 (- z) EmptyString)
  else digitsOf 400 z EmptyString.

(** Number::toString on NaN and on integral values. *)
Definition NumberToString (x : float) : string :=
  match Number.truncate x with
  | Some z => integerToString z
  | None => if is_nan x then "NaN"
            else if (x <? 0)%float then "-Infinity" else "Infinity"
  end.

Definition isLeapYear (y : Z) : bool :=
  ((y mod 4 =? 0) && negb (y mod 100 =? 0)) || (y mod 400 =? 0).

Definition daysInMonth (y m : Z) : Z :=
  if m =? 2 then (if isLeapYear y then 29 else 28)
  else if (m =? 4) || (m =? 6) || (m =? 9) || (m =? 11) then 30 else 31.

(** Days from 1970-01-01 to the civil date [y]-[m]-[d]. *)
Definition daysFromCivil (y m d : Z) : Z :=
  let y' := if m <=? 2 then y - 1 else y in
  let era := y' / 400 in
  let yoe := y' - era * 400 in
  let doy := (153 * (if 2 <? m then m - 3 else m + 9) + 2) / 5 + d - 1 in
  let doe := yoe * 365 + yoe / 4 - yoe / 100 + doy in
  era * 146097 + doe - 719468.

Definition Date_parse (s : string) : option Z :=
  let '(y, ny, s1) := readDigits s 0 0 in
  match s1 with
  | String "-" s2 =>
      let '(m, nm, s3) := readDigits s2 0 0 in
      match s3 with
      | String "-" s4 =>
          let '(d, nd, s5) := readDigits s4 0 0 in
          match s5 with
          | EmptyString =>
              if (ny =? 4)%nat && (nm =? 2)%nat && (nd =? 2)%nat
                 && (1 <=? m) && (m <=? 12)
                 && (1 <=? d) && (d <=? daysInMonth y m)
              then Some (daysFromCivil y m d * 86400000)
              else None
          | _ => None
          end
      | _ => None
      end
  | _ => None
  end.

End RefHost.

Definition refHost : Host := {|
  toLowerCase := RefHost.toLowerCase;
  localeCompare := RefHost.localeCompare;
  StringToNumber := RefHost.StringToNumber;
  NumberToString := RefHost.NumberToString;
  parseFloat_string := RefHost.parseFloat_string;
  parseInt_string := RefHost.parseInt_string;
  Date_parse := RefHost.Date_parse;
|}.

(** ** More of the [Page] component: page buttons, exports, upload *)

Definition setCurrentPage (page : Z) (st : State) : State := {|
  data := data st; columns := columns st; xColumn := xColumn st;
  yColumn := yColumn st; chartType := chartType st;
  instruction := instruction st; metrics := metrics st;
  filterText := filterText st;
  sortColumn := sortColumn st; sortDirection := sortDirection st;
  currentPage := page; dateRange := dateRange st;
  selectedColumns := selectedColumns st; isLoading := isLoading st |}.

(** The [select] of the columns to display: [setSelectedColumns(selected)]. *)
Definition setSelectedColumns (selected : list string) (st : State) : State := {|
  data := data st; columns := columns st; xColumn := xColumn st;
  yColumn := yColumn st; chartType := chartType st;
  instruction := instruction st; metrics := metrics st;
  filterText := filterText st;
  sortColumn := sortColumn st; sortDirection := sortDirection st;
  currentPage := currentPage st; dateRange := dateRange st;
  selectedColumns := selected; isLoading := isLoading st |}.

(** The header row of the table and of both exports:
    [selectedColumns.length > 0 ? selectedColumns : columns]. *)
Definition displayedColumns (st : State) : list string :=
  if (0 <? length (selectedColumns st))%nat then selectedColumns st
  else columns st.

Section PageControls.
Context `{Host}.

(** The pagination controls: rendered when [data.length > 0], one button
    per visible page number. *)
Definition pageButtons (st : State) : list Z :=
  if (0 <? length (data st))%nat then
    visiblePages (currentPage st) (totalPages (filteredData st))
  else [].

(** A click on the button of [page]: [setCurrentPage(page)].  There is
    nothing to click for a page that has no button. *)
Definition clickPage (page : Z) (st : State) : option State :=
  if decide (page ∈ pageButtons st) then Some (setCurrentPage page st)
  else None.

(** A sequence of clicks on page buttons. *)
Fixpoint clickPages (pages : list Z) (st : State) : option State :=
  match pages with
  | [] => Some st
  | page :: rest => st' ← clickPage page st; clickPages rest st'
  end.

(** The rows the table body shows. *)
Definition tableRows (st : State) : list Row :=
  paginatedRows (filteredData st) (currentPage st).

End PageControls.

(** [xs.join(sep)] on strings. *)
Fixpoint Array_join (sep : string) (xs : list string) : string :=
  match xs with
  | [] => ""
  | [x] => x
  | x :: rest => x +:+ sep +:+ Array_join sep rest
  end.

Definition comma : string := ",".
Definition doubleQuote : string := String (ascii_of_N 34) EmptyString.
Definition newline : string := String (ascii_of_N 10) EmptyString.

Section Exports.
Context `{Host}.

(** A cell in a line of the CSV export: the [map] callback wraps a
    string that contains a comma in double quotes and leaves every other
    cell as it is; [join] then writes a number with ToString and
    [undefined] as the empty string. *)
Definition csvField (cell : Cell) : string :=
  match cell with
  | CText s =>
      if JSString.includes s comma then doubleQuote +:+ s +:+ doubleQuote
      else s
  | CNumber x => NumberToString x
  | CEmpty => ""
  end.

Definition csvLine (row : Row) : string :=
  Array_join comma (List.map csvField row).

(** [csvContent]: the header line and one line per row of [filteredData],
    joined with newlines. *)
Definition csvContent (st : State) : string :=
  Array_join newline
    (Array_join comma (displayedColumns st)
     :: List.map csvLine (filteredData st)).

(** [exportToCSV]: the text of the downloaded file, or [None] for the
    alert "No data to export". *)
Definition exportToCSV (st : State) : option string :=
  if (length (filteredData st) =? 0)%nat then None
  else Some (csvContent st).

(** The table [exportToPDF] hands to [autoTable]: the header and the first
    ten rows of [filteredData]; no table when there are no rows. *)
Definition pdfTable (st : State) : option (list string * list Row) :=
  if (0 <? length (filteredData st))%nat then
    Some (displayedColumns st, Array.slice (filteredData st) 0 10)
  else None.

End Exports.

(** What reading and parsing an uploaded file gives the handler: the file
    could not be read, its content could not be parsed, or it holds a
    table whose row 0 is the header.  (A header of text cells, as a CSV
    file always has.) *)
Inductive FileContents : Type :=
  | Unreadable
  | Unparsable
  | Parsed (header : list string) (rows : list Row).

Inductive UploadAlert : Type :=
  | ParseError            (* "Error parsing ... file. Please check ..." *)
  | ReadError             (* "Error reading file. Please try again." *)
  | UnsupportedFile.      (* "Please upload a CSV or XLSX file" *)

(** The text after the last ["."] of a file name, the whole name when it
    has none: [name.split(".").pop()]. *)
Fixpoint lastSegment (name : string) (segment : string) : string :=
  match name with
  | EmptyString => segment
  | String c rest =>
      if Ascii.eqb c "."%char then lastSegment rest EmptyString
      else lastSegment rest (segment +:+ String c EmptyString)
  end.

Section Upload.
Context `{Host}.

Definition fileExtension (name : string) : string :=
  toLowerCase (lastSegment name EmptyString).

(** [handleFileUpload] with the result of reading and parsing the file,
    followed by the metrics effect that the new [data] and [columns]
    trigger.  [None] is "no file selected".  Both callbacks of the CSV
    parser give the parse alert; the XLSX branch has an alert of its own
    for a file that cannot be read. *)
Definition handleFileUpload (file : option (string * FileContents))
    (st : State) : State * option UploadAlert :=
  match file with
  | None => (st, None)
  | Some (name, contents) =>
      if String.eqb (fileExtension name) "csv" then
        match contents with
        | Unreadable | Unparsable => (st, Some ParseError)
        | Parsed header rows =>
            (upload (List.map CText header :: rows) header st, None)
        end
      else if String.eqb (fileExtension name) "xlsx" then
        match contents with
        | Unreadable => (st, Some ReadError)
        | Unparsable => (st, Some ParseError)
        | Parsed header rows =>
            (upload (List.map CText header :: rows) header st, None)
        end
      else (st, Some UnsupportedFile)
  end.

End Upload.

(** ** The [Header] component: the theme toggle *)

Module Theme.

(** [localStorage]: not available (every access throws), or holding the
    item ["theme"] or not. *)
Inductive Storage : Type :=
  | Unavailable
  | Available (item : option string).

(** The browser side of the component: the storage and whether the
    document element carries the class [dark]. *)
Record Browser : Type := {
  storage : Storage;
  darkClass : bool;
}.

Definition isDark (theme : string) : bool := String.eqb theme "dark".

(** The first effect, on mount: the saved theme, or ["light"] when none is
    saved or the storage throws; the class follows the saved theme. *)
Definition loadEffect (b : Browser) : string * Browser :=
  match storage b with
  | Unavailable => ("light", b)
  | Available item =>
      let savedTheme :=
        match item with
        | Some s => if JSString.truthy s then s else "light"
        | None => "light"
        end in
      (savedTheme, {| storage := storage b; darkClass := isDark savedTheme |})
  end.

(** The second effect, after the first render and after every change of
    [theme]: the class is set first, then the theme is saved; a storage
    that throws leaves the class set. *)
Definition saveEffect (theme : string) (b : Browser) : Browser :=
  {| storage :=
       match storage b with
       | Unavailable => Unavailable
       | Available _ => Available (Some theme)
       end;
     darkClass := isDark theme |}.

(** Mounting the component: the first render has [theme = "light"]; both
    effects run, and when the first one changed the theme the second runs
    again after the re-render. *)
Definition mount (b : Browser) : string * Browser :=
  let '(theme, b1) := loadEffect b in
  let b2 := saveEffect "light" b1 in
  if String.eqb theme "light" then (theme, b2)
  else (theme, saveEffect theme b2).

(** [handleThemeToggle], with the effect the new theme triggers. *)
Definition handleThemeToggle (theme : string) (b : Browser)
    : string * Browser :=
  let newTheme := if isDark theme then "light" else "dark" in
  (newTheme, saveEffect newTheme b).

End Theme.

(** * Vocabulary of the properties, and example data *)

(** ** Order and sortedness *)

(** A positive number, on the specification of binary64. *)
Definition SFpositive (x : spec_float) : bool :=
  match x with
  | S754_infinity false | S754_finite false _ _ => true
  | _ => false
  end.

(** [a] may stand before [b]: [comparefn(a, b)] is not positive. *)
Definition inOrder {A} (comparefn : A -> A -> float) (a b : A) : Prop :=
  Number.positive (comparefn a b) = false.

(** No two elements are each greater than the other. *)
Definition Antisymmetric {A} (comparefn : A -> A -> float) : Prop :=
  forall a b, Number.positive (comparefn a b) = true ->
              Number.positive (comparefn b a) = false.

(** [comparefn] is a consistent comparator on the elements of [xs]: no two
    of them are each greater than the other, and "not greater" is
    transitive among them. *)
Definition ConsistentOn {A} (comparefn : A -> A -> float) (xs : list A)
    : Prop :=
  (forall a b, a ∈ xs -> b ∈ xs ->
     Number.positive (comparefn a b) = true ->
     Number.positive (comparefn b a) = false)
  /\ (forall a b c, a ∈ xs -> b ∈ xs -> c ∈ xs ->
        inOrder comparefn a b -> inOrder comparefn b c ->
        inOrder comparefn a c).

(** [ys] keeps the elements of [xs] that are tied with one another in the
    order they have in [xs]: every selection [tied] of elements none of
    which is greater than another reads the same in [ys] and in [xs]. *)
Definition KeepsTies {A} (comparefn : A -> A -> float) (xs ys : list A)
    : Prop :=
  forall tied : A -> bool,
    (forall a b, a ∈ xs -> b ∈ xs -> tied a = true -> tied b = true ->
                 inOrder comparefn a b) ->
    List.filter tied ys = List.filter tied xs.

(** [comparefn] reads the same from both sides on the elements of [xs]:
    [a] is less than [b] exactly when [b] is greater than [a]. *)
Definition SymmetricOn {A} (comparefn : A -> A -> float) (xs : list A)
    : Prop :=
  forall a b, a ∈ xs -> b ∈ xs ->
    V8.negative (comparefn a b) = Number.positive (comparefn b a).

(** [a] is greater than [b]: [comparefn(a, b)] is positive. *)
Definition Greater {A} (comparefn : A -> A -> float) (a b : A) : Prop :=
  Number.positive (comparefn a b) = true.

(** Every element is greater than every later one. *)
Definition Descending {A} (comparefn : A -> A -> float) (ys : list A)
    : Prop :=
  StronglySorted (Greater comparefn) ys.

(** A selection of elements of [xs] none of which is greater than
    another. *)
Definition Tied {A} (comparefn : A -> A -> float) (xs : list A)
    (tied : A -> bool) : Prop :=
  forall a b, a ∈ xs -> b ∈ xs -> tied a = true -> tied b = true ->
              inOrder comparefn a b.

(** The elements tied with [y]. *)
Definition tiedWith {A} (comparefn : A -> A -> float) (y a : A) : bool :=
  negb (Number.positive (comparefn y a))
  && negb (Number.positive (comparefn a y)).

(** The cell a row is sorted by: [a[sortColumn]]. *)
Definition sortKey (column : nat) (row : Row) : Cell :=
  Row_get row (Z.of_nat column).

(** Rows that compare equal under the current sort: neither is greater
    than the other. *)
Definition tiedRows `{Host} (st : State) (a b : Row) : Prop :=
  match sortColumn st with
  | Some column =>
      Number.positive (compareRows (sortDirection st) column a b) = false
      /\ Number.positive (compareRows (sortDirection st) column b a) = false
  | None => True
  end.

(** The comparator of the current sort is a consistent comparator for
    the rows, in the sense of ECMAScript. *)
Definition consistentRows `{Host} (st : State) (rows : list Row) : Prop :=
  match sortColumn st with
  | Some column =>
      ConsistentOn (compareRows (sortDirection st) column) rows
      /\ SymmetricOn (compareRows (sortDirection st) column) rows
  | None => True
  end.

(** A sequence that is sorted by the current sort: no row is greater than
    the row after it. *)
Definition sortedRows `{Host} (st : State) (rows : list Row) : Prop :=
  match sortColumn st with
  | Some column => Sorted (inOrder (compareRows (sortDirection st) column)) rows
  | None => True
  end.

(** ** Text filtering *)


(** ** Pipelines on array references *)

(** A step of a pipeline on array references computes [f] when, run on an
    array holding [xs], it returns an array holding [f xs] and leaves every
    array of the heap as it was. *)
Definition Computes (step : Ref -> Prog Ref) (f : list Row -> list Row)
    : Prop :=
  forall (r : Ref) (xs : list Row) (h : Heap),
    h !! r = Some xs ->
    exists r' h', step r h = (r', h') /\ h' !! r' = Some (f xs) /\ h ⊆ h'.

(** ** Pages *)

(** The pages [1 .. n]. *)
Definition pageNumbers (n : Z) : list Z :=
  Array.from_length n (fun i => 1 + i).

(** The pages [first .. last], in order. *)
Definition pageRange (first last : Z) : list Z :=
  Array.from_length (last - first + 1) (fun i => first + i).

(** ** The chart selection *)

(** The three fields a resolver response must carry. *)
Definition selectionKeys : list string := ["chartType"; "xColumn"; "yColumn"].

(** The chart selection of a state. *)
Definition selection (st : State) : Json * Json * Json :=
  (chartType st, xColumn st, yColumn st).

Definition okResponse (result : Json) : Response :=
  {| ok := true; status := 200; body := Some result |}.

(** ** Example tables, states and responses *)

Definition exampleHeader : list string := ["Date"; "Revenue"; "Users"].

Definition exampleTable : list Row := [
  [CText "Date"; CText "Revenue"; CText "Users"];
  [CText "2024-01-01"; CText "100"; CText "5"];
  [CText "2024-01-02"; CText "200"; CText "10"]
].

(** The state after the upload of [exampleTable]. *)
Definition exampleState : State :=
  upload (H := refHost) exampleTable exampleHeader initialState.

(** Three rows of which the first and the last have the same revenue. *)
Definition rowsWithTie : list Row := [
  [CText "2024-01-01"; CText "200"; CText "5"];
  [CText "2024-01-02"; CText "100"; CText "10"];
  [CText "2024-01-03"; CText "200"; CText "7"]
].



(** A table whose column mixes numerals and other text, and the state
    after its upload and a click on the header of that column. *)
Definition mixedTable : list Row := [
  [CText "Code"];
  [CText "0"]; [CText "1x"]; [CText "2"]; [CText "1"]; [CText "02"]
].

Definition mixedState : State :=
  handleSort 0 (upload (H := refHost) mixedTable ["Code"] initialState).

(** The rows whose code is the number 2. *)
Definition codeIsTwo (row : Row) : bool :=
  match sortKey 0 row with
  | CText s => String.eqb s "2" || String.eqb s "02"
  | _ => false
  end.

(** The rows whose revenue is the text ["200"]. *)
Definition revenueIs200 (row : Row) : bool :=
  match sortKey 1 row with
  | CText s => String.eqb s "200"
  | _ => false
  end.

(** A table with a date that cannot be parsed, and the view with the
    start of the date range set. *)
Definition tableWithBadDate : list Row := [
  [CText "Date"; CText "Revenue"];
  [CText "unknown"; CText "100"];
  [CText "2024-01-02"; CText "200"]
].

Definition stateWithBadDate : State := {|
  data := tableWithBadDate;
  columns := ["Date"; "Revenue"];
  xColumn := JString "";
  yColumn := JString "";
  chartType := JString "bar";
  instruction := "";
  metrics := zeroMetrics;
  filterText := "";
  sortColumn := None;
  sortDirection := asc;
  currentPage := 1;
  dateRange := {| start := "2024-01-01"; stop := "" |};
  selectedColumns := ["Date"; "Revenue"];
  isLoading := false;
|}.

(** The state after the upload of a table that has a header and no rows,
    over the state that held [exampleTable]. *)
Definition headerOnlyTable : list Row := [
  [CText "Date"; CText "Revenue"; CText "Users"]
].

Definition stateAfterEmptyUpload : State :=
  setTable headerOnlyTable exampleHeader exampleState.

(** A state in which an instruction was typed over the example table. *)
Definition stateWithInstruction : State :=
  setInstruction "scatter plot of revenue by date" exampleState.

Definition scatterSelection : Json :=
  JObject [("chartType", JString "scatter");
           ("xColumn", JString "Date");
           ("yColumn", JString "Revenue")].

(** A response without the field [yColumn]. *)
Definition selectionWithoutY : Json :=
  JObject [("chartType", JString "line"); ("xColumn", JString "Date")].

Definition emptyChartTypeSelection : Json :=
  JObject [("chartType", JString "");
           ("xColumn", JString "Date");
           ("yColumn", JString "Revenue")].

(** The state and the outcome of the run on a response whose chart type
    is the empty string. *)
Definition runOnEmptyChartType : State * Outcome :=
  interpretInstruction (Normal (okResponse emptyChartTypeSelection))
    stateWithInstruction.

(** ** The sort controls, the export and the upload *)


(** The text has no comma. *)
Definition commaFree (s : string) : Prop :=
  JSString.includes s comma = false.

(** The text has no dot. *)
Definition dotFree (s : string) : Prop :=
  JSString.includes s "." = false.

(** A text cell without a comma: a cell the CSV export writes as it is. *)
Definition plainText (cell : Cell) : Prop :=
  exists s, cell = CText s /\ commaFree s.

(** What follows a field in a line: nothing, or a comma and more. *)
Definition fieldEnd (rest : string) : Prop :=
  rest = "" \/ exists more, rest = comma +:+ more.

(** ** More example states *)

(** The example state with the column [Revenue] selected. *)
Definition revenueOnly : State :=
  setSelectedColumns ["Revenue"] exampleState.

(** The example state with a chart of revenue by date selected. *)
Definition revenueByDate : State :=
  setYColumn (JString "Revenue") (setXColumn (JString "Date") exampleState).

(** A table of 25 data rows, of which only the last holds ["b"]; the
    state after its upload and a click on the button of page 3. *)
Definition longTable : list Row :=
  [CText "Name"] :: repeat [CText "a"] 24 ++ [[CText "b"]].

Definition stateOnPage3 : State :=
  setCurrentPage 3 (upload (H := refHost) longTable ["Name"] initialState).

(** * Properties *)

(** ** The reference host *)

Example refHost_examples :
  @Date_parse refHost "2024-01-02" = Some 1704153600000
  /\ @Date_parse refHost "unknown" = None
  /\ PrimFloat.eqb (@StringToNumber refHost " 12.5 ") 12.5 = true
  /\ is_nan (@StringToNumber refHost "10,") = true
  /\ PrimFloat.eqb (@parseInt_string refHost "15 users") 15 = true
  /\ @NumberToString refHost 300 = "300"
  /\ @toLowerCase refHost "Date" = "date".
Proof. vm_compute. repeat split. Qed.

Lemma refHost_laws : HostLaws refHost.
Proof.
  intros s t. simpl. unfold RefHost.localeCompare.
  rewrite (String.compare_antisym s t).
  by destruct (String.compare t s).
Qed.

(** ** Numbers: the sign of a difference *)

Lemma positive_spec (x : float) : Number.positive x = SFpositive (Prim2SF x).
Proof.
  unfold Number.positive. rewrite ltb_spec.
  change (Prim2SF 0) with (S754_zero false). unfold SFltb.
  destruct (Prim2SF x) as [s|s| |s m e]; simpl; try destruct s; reflexivity.
Qed.

Lemma binary_round_aux_positive prec emax sx mx ex lx :
  SFpositive (binary_round_aux prec emax sx mx ex lx) = true -> sx = false.
Proof.
  unfold binary_round_aux.
  destruct (shr_fexp prec emax mx ex lx) as [mrs' e'].
  destruct (shr_fexp _ _ _ _ _) as [mrs'' e''].
  destruct (shr_m mrs''); [| destruct (_ <=? _) |];
    destruct sx; simpl; intros; congruence.
Qed.

Lemma binary_normalize_positive prec emax m e sz :
  SFpositive (binary_normalize prec emax m e sz) = true -> 0 < m.
Proof.
  destruct m as [|p|p]; simpl.
  - destruct sz; discriminate.
  - lia.
  - unfold binary_round. destruct (shl_align _ _ _) as [mz ez].
    intros Hpos%binary_round_aux_positive. discriminate.
Qed.

Lemma SFsub_positive_antisym prec emax x y :
  SFpositive (SFsub prec emax x y) = true ->
  SFpositive (SFsub prec emax y x) = false.
Proof.
  destruct x as [sx|sx| |sx mx ex], y as [sy|sy| |sy my ey];
    try (simpl; repeat match goal with s : bool |- _ => destruct s end;
         simpl; congruence).
  unfold SFsub. intros Hxy%binary_normalize_positive.
  rewrite (Z.min_comm ey ex).
  apply not_true_is_false. intros Hyx%binary_normalize_positive. lia.
Qed.

(** [a - b > 0] and [b - a > 0] never hold together. *)
Lemma sub_positive_antisym (a b : float) :
  Number.positive (a - b) = true -> Number.positive (b - a) = false.
Proof. rewrite !positive_spec, !sub_spec. apply SFsub_positive_antisym. Qed.

(** ** Strings and arrays *)

Lemma append_cons (c : ascii) (s t : string) :
  String c s +:+ t = String c (s +:+ t).
Proof. reflexivity. Qed.

Lemma prefix_spec (t s : string) :
  String.prefix t s = true <-> exists after, s = t +:+ after.
Proof.
  revert s. induction t as [|c t IH]; intros s.
  - split; [by exists s | by destruct s].
  - destruct s as [|d s]; cbn.
    { split; [done | by intros [? ?]]. }
    destruct (Ascii.ascii_dec c d) as [->|Hcd].
    + rewrite IH. split; intros [after Hs]; exists after.
      * by rewrite append_cons, Hs.
      * rewrite append_cons in Hs. by injection Hs.
    + split; [done|]. intros [after Hs]. rewrite append_cons in Hs. congruence.
Qed.

(** [includes]: the text occurs between some prefix and some suffix. *)
Lemma includes_spec (s t : string) :
  JSString.includes s t = true
  <-> exists before after, s = before +:+ t +:+ after.
Proof.
  induction s as [|c s IH]; cbn [JSString.includes].
  - rewrite orb_false_r, prefix_spec. split.
    + intros [after Hs]. by exists EmptyString, after.
    + intros (before & after & Hs). destruct before; [by exists after|done].
  - rewrite orb_true_iff, prefix_spec, IH. split.
    + intros [[after Hs] | (before & after & Hs)].
      * by exists EmptyString, after.
      * exists (String c before), after. by rewrite append_cons, Hs.
    + intros (before & after & Hs). destruct before as [|d before].
      * left. by exists after.
      * right. exists before, after. rewrite append_cons in Hs. congruence.
Qed.

Lemma truthy_empty (s : string) : JSString.truthy s = false <-> s = "".
Proof. by destruct s. Qed.

Lemma filter_sublist {A} (p : A -> bool) (xs : list A) :
  List.filter p xs `sublist_of` xs.
Proof.
  induction xs as [|x xs IH]; simpl; [done|].
  destruct (p x); by constructor.
Qed.

(** [slice] between two indices that are not negative. *)
Lemma slice_nonneg {A} (xs : list A) (start stop : Z) :
  0 <= start -> start <= stop ->
  Array.slice xs start stop
  = take (Z.to_nat (stop - start)) (drop (Z.to_nat start) xs).
Proof.
  intros Hstart Hstop. unfold Array.slice, Array.relative_index.
  destruct (Z.ltb_spec start 0) as [?|_]; [lia|].
  destruct (Z.ltb_spec stop 0) as [?|_]; [lia|].
  destruct (Z_le_gt_dec start (Z.of_nat (length xs))) as [Hle|Hgt].
  - rewrite (Z.min_l start) by done.
    destruct (Z_le_gt_dec stop (Z.of_nat (length xs))) as [Hle'|Hgt'].
    + rewrite (Z.min_l stop) by done. f_equal. lia.
    + rewrite (Z.min_r stop) by lia.
      rewrite !take_ge; [done | |]; rewrite length_drop; lia.
  - rewrite !drop_ge by lia. by rewrite !take_nil.
Qed.

Lemma slice_from_drop {A} (xs : list A) (start : nat) :
  Array.slice_from xs (Z.of_nat start) = drop start xs.
Proof.
  unfold Array.slice_from.
  destruct (Z_le_gt_dec (Z.of_nat start) (Z.of_nat (length xs))).
  - rewrite slice_nonneg by lia. rewrite Nat2Z.id.
    apply take_ge. rewrite length_drop. lia.
  - unfold Array.slice, Array.relative_index.
    destruct (Z.ltb_spec (Z.of_nat start) 0) as [?|_]; [lia|].
    destruct (Z.ltb_spec (Z.of_nat (length xs)) 0) as [?|_]; [lia|].
    rewrite !drop_ge by lia. by rewrite take_nil.
Qed.

Lemma slice_from_1_nil {A} (xs : list A) :
  Array.slice_from xs 1 = [] <-> (length xs <= 1)%nat.
Proof.
  change 1 with (Z.of_nat 1). rewrite (slice_from_drop xs 1).
  destruct xs as [|x [|y xs]]; simpl.
  - split; [lia | done].
  - split; [lia | done].
  - split; [done | lia].
Qed.

Lemma concat_chunks {A} (k : nat) (xs : list A) (m : nat) :
  concat (List.map (fun i => take k (drop (i * k) xs)) (seq 0 m))
  = take (m * k) xs.
Proof.
  induction m as [|m IH].
  - by rewrite take_0.
  - rewrite seq_S, List.map_app, concat_app, IH. simpl.
    rewrite app_nil_r, take_take_drop. f_equal. lia.
Qed.

(** ** Metrics *)

(** C3, as the code has it: for every table whose data-row set is empty
    the guard skips the computation, so the effect leaves the state, and
    with it the metrics, as it was; the metrics are then the all-zero
    metrics when the state held them before, as it does when this is the
    first table loaded.  No mean over zero rows is computed. *)
Theorem metrics_of_empty_table `{Host} (st : State) :
  Array.slice_from (data st) 1 = [] ->
  metricsEffect st = st
  /\ (metrics st = zeroMetrics -> metrics (metricsEffect st) = zeroMetrics)
  /\ metrics (upload (data st) (columns st) initialState) = zeroMetrics.
Proof.
  intros Hempty%slice_from_1_nil.
  assert (Hguard : forall st', data st' = data st -> metricsEffect st' = st').
  { intros st' Hdata. unfold metricsEffect. rewrite Hdata.
    destruct (Nat.ltb_spec 1 (length (data st))); [lia|done]. }
  split_and!.
  - by apply Hguard.
  - intros Hzero. by rewrite Hguard.
  - unfold upload. by rewrite Hguard.
Qed.

Lemma metrics_of_empty_table_witness :
  metricsEffect (H := refHost) stateAfterEmptyUpload = stateAfterEmptyUpload
  /\ (metrics stateAfterEmptyUpload = zeroMetrics ->
      metrics (metricsEffect (H := refHost) stateAfterEmptyUpload)
      = zeroMetrics)
  /\ metrics (upload (H := refHost) (data stateAfterEmptyUpload)
                (columns stateAfterEmptyUpload) initialState)
     = zeroMetrics.
Proof.
  apply (metrics_of_empty_table (H := refHost) stateAfterEmptyUpload).
  reflexivity.
Defined.

(** C3 as stated fails: the table loaded has no data rows, and the
    metrics after its upload are those of the table loaded before, not
    the all-zero metrics. *)
Lemma metrics_of_empty_table_counterexample :
  Array.slice_from (data stateAfterEmptyUpload) 1 = []
  /\ metrics (metricsEffect (H := refHost) stateAfterEmptyUpload)
     = {| revenue := 300; users := 15; conversions := 0; growth := 0 |}
  /\ metrics (metricsEffect (H := refHost) stateAfterEmptyUpload)
     <> zeroMetrics.
Proof.
  split_and!; [reflexivity | reflexivity |].
  intros Hzero.
  apply (f_equal (fun m => PrimFloat.eqb (revenue m) 0)) in Hzero.
  vm_compute in Hzero. discriminate.
Qed.

(** ** Text filtering *)





(** ** Date-range filtering *)

(** A row whose date cell is no date fails every comparison, so with a
    bound set the [try] body returns [false]; the [catch] that would keep
    the row is not reached, because [new Date] does not throw. *)
Lemma dateInRange_invalid `{Host} (range : DateRange) (index : Z) (row : Row) :
  Date_new (Row_get row index) = None ->
  JSString.truthy (start range) || JSString.truthy (stop range) = true ->
  dateInRange range index row = false.
Proof.
  intros Hinvalid Hbound. unfold dateInRange. rewrite Hinvalid.
  destruct (JSString.truthy (start range)), (JSString.truthy (stop range));
    done.
Qed.

Lemma dateFilter_drops_invalid `{Host} (st : State) (rows : list Row)
    (row : Row) :
  JSString.truthy (start (dateRange st))
  || JSString.truthy (stop (dateRange st)) = true ->
  Array.findIndex isDateColumn (columns st) <> -1 ->
  Date_new (Row_get row (Array.findIndex isDateColumn (columns st))) = None ->
  row ∉ dateFilter st rows.
Proof.
  intros Hbound Hcolumn Hinvalid. unfold dateFilter. rewrite Hbound.
  destruct (Z.eqb_spec (Array.findIndex isDateColumn (columns st)) (-1))
    as [?|_]; [done|]. simpl.
  rewrite list_elem_of_In, filter_In.
  rewrite (dateInRange_invalid _ _ _ Hinvalid Hbound). by intros [_ ?].
Qed.

(** C1, at a failing input: the cell ["unknown"] of the date column does
    not parse as a date, a start bound is set, and the row is dropped by
    the date-range stage (and so from [filteredData]), though the
    handler in the code means to keep it. *)
Theorem unparsable_date_is_dropped :
  Date_new (H := refHost) (CText "unknown") = None
  /\ dateInRange (H := refHost) (dateRange stateWithBadDate) 0
       [CText "unknown"; CText "100"] = false
  /\ dateFilter (H := refHost) stateWithBadDate
       (Array.slice_from (data stateWithBadDate) 1)
     = [[CText "2024-01-02"; CText "200"]]
  /\ filteredData (H := refHost) stateWithBadDate
     = [[CText "2024-01-02"; CText "200"]].
Proof. vm_compute. by repeat split. Qed.

(** ** [Array.prototype.sort] *)

Section Sort.
Context {A : Type} (comparefn : A -> A -> float).

Lemma insert_Permutation x xs : Array.insert comparefn x xs ≡ₚ x :: xs.
Proof.
  induction xs as [|y ys IH]; simpl; [done|].
  destruct (Number.positive _); [|done].
  rewrite IH. apply Permutation_swap.
Qed.

(** The result holds the same elements. *)
Lemma sort_Permutation xs : Array.sort comparefn xs ≡ₚ xs.
Proof.
  induction xs as [|x xs IH]; simpl; [done|].
  unfold Array.sort in *. simpl. rewrite insert_Permutation. by f_equiv.
Qed.

Lemma insert_HdRel x y ys :
  inOrder comparefn y x -> HdRel (inOrder comparefn) y ys ->
  HdRel (inOrder comparefn) y (Array.insert comparefn x ys).
Proof.
  intros Hyx Hy. destruct ys as [|z zs]; simpl; [by constructor|].
  destruct (Number.positive (comparefn x z)); constructor; [|done].
  by inversion Hy.
Qed.

Lemma insert_Sorted x xs :
  (forall b, b ∈ xs -> Number.positive (comparefn x b) = true ->
             Number.positive (comparefn b x) = false) ->
  Sorted (inOrder comparefn) xs ->
  Sorted (inOrder comparefn) (Array.insert comparefn x xs).
Proof.
  intros Hanti. induction 1 as [|y ys Hsorted IH Hhd]; simpl.
  - repeat constructor.
  - destruct (Number.positive (comparefn x y)) eqn:Hxy.
    + constructor.
      * apply IH. intros b Hb. apply Hanti. by right.
      * apply insert_HdRel; [|done]. apply Hanti; [by left|done].
    + constructor; [by constructor|]. by constructor.
Qed.

Lemma sort_Sorted_on xs :
  (forall a b, a ∈ xs -> b ∈ xs ->
     Number.positive (comparefn a b) = true ->
     Number.positive (comparefn b a) = false) ->
  Sorted (inOrder comparefn) (Array.sort comparefn xs).
Proof.
  induction xs as [|x xs IH]; intros Hanti; [constructor|].
  apply insert_Sorted.
  - intros b Hb. apply Hanti; [by left|]. right.
    by rewrite <- (sort_Permutation xs).
  - apply IH. intros a b Ha Hb. apply Hanti; by right.
Qed.

(** The result is in order: no element is greater than its successor. *)
Lemma sort_Sorted xs :
  Antisymmetric comparefn ->
  Sorted (inOrder comparefn) (Array.sort comparefn xs).
Proof. intros Hanti. apply sort_Sorted_on. intros a b _ _. apply Hanti. Qed.

(** An array that is in order already is left as it is. *)
Lemma sort_of_Sorted xs :
  Sorted (inOrder comparefn) xs -> Array.sort comparefn xs = xs.
Proof.
  induction 1 as [|x xs Hsorted IH Hhd]; [done|].
  unfold Array.sort in *. simpl. rewrite IH.
  destruct Hhd as [|y ys Hxy]; simpl; [done|]. by rewrite Hxy.
Qed.

Lemma sort_idempotent xs :
  Antisymmetric comparefn ->
  Array.sort comparefn (Array.sort comparefn xs) = Array.sort comparefn xs.
Proof. intros Hanti. by apply sort_of_Sorted, sort_Sorted. Qed.

(** Stability: [sort] keeps tied elements in their order. *)
Lemma insert_filter_tied (tied : A -> bool) x xs :
  (forall b, tied x = true -> tied b = true -> b ∈ xs ->
             inOrder comparefn x b) ->
  List.filter tied (Array.insert comparefn x xs) = List.filter tied (x :: xs).
Proof.
  induction xs as [|y ys IH]; intros Htied; [done|]. simpl.
  destruct (Number.positive (comparefn x y)) eqn:Hxy; [|done].
  simpl. rewrite IH by (intros b ? ? ?; apply Htied; [done..|by right]).
  simpl. destruct (tied x) eqn:Hx, (tied y) eqn:Hy; try done.
  rewrite Htied in Hxy; [done..|by left].
Qed.

Lemma sort_KeepsTies xs : KeepsTies comparefn xs (Array.sort comparefn xs).
Proof.
  intros tied. induction xs as [|x xs IH]; intros Htied; [done|].
  unfold Array.sort in *. simpl foldr. rewrite insert_filter_tied.
  - simpl. rewrite IH; [done|].
    intros a b Ha Hb. apply Htied; by right.
  - intros b Hx Hb Hin. apply Htied; [by left | | done..].
    right. by rewrite <- (sort_Permutation xs).
Qed.

(** Where ECMAScript fixes the result of [sort], the model gives it: on
    a consistent comparator the sorted arrangement that keeps ties is
    unique. *)
Lemma Sorted_StronglySorted_on (xs ys : list A) :
  ConsistentOn comparefn xs -> ys ⊆ xs ->
  Sorted (inOrder comparefn) ys -> StronglySorted (inOrder comparefn) ys.
Proof.
  intros [_ Htrans] Hsub. induction 1 as [|y ys Hsorted IH Hhd].
  - constructor.
  - assert (Hys : ys ⊆ xs) by (intros a Ha; apply Hsub; by right).
    constructor; [by apply IH|].
    destruct Hhd as [|z zs Hyz]; [constructor|].
    specialize (IH Hys). apply StronglySorted_inv in IH as [_ Hz].
    constructor; [done|].
    apply Forall_forall. intros a Ha.
    apply (Htrans y z a); [apply Hsub; by left | apply Hys; by left
                           | apply Hys; by right | done |].
    by apply (proj1 (Forall_forall _ _) Hz a).
Qed.

Lemma tiedWith_spec (y a : A) :
  tiedWith comparefn y a = true
  <-> inOrder comparefn y a /\ inOrder comparefn a y.
Proof.
  unfold tiedWith, inOrder.
  by rewrite andb_true_iff, !negb_true_iff.
Qed.

Lemma tiedWith_refl (xs : list A) (y : A) :
  ConsistentOn comparefn xs -> y ∈ xs -> tiedWith comparefn y y = true.
Proof.
  intros [Hanti _] Hy. apply tiedWith_spec.
  assert (inOrder comparefn y y); [|done].
  unfold inOrder. destruct (Number.positive (comparefn y y)) eqn:Hyy; [|done].
  by rewrite (Hanti y y Hy Hy Hyy) in Hyy.
Qed.

Lemma tiedWith_tied (xs : list A) (y : A) :
  ConsistentOn comparefn xs -> y ∈ xs ->
  forall a b, a ∈ xs -> b ∈ xs ->
              tiedWith comparefn y a = true -> tiedWith comparefn y b = true ->
              inOrder comparefn a b.
Proof.
  intros [_ Htrans] Hy a b Ha Hb [_ Hay]%tiedWith_spec [Hyb _]%tiedWith_spec.
  by apply (Htrans a y b).
Qed.

(** Two sorted arrangements of elements of [xs] that agree on every group
    of tied elements are the same. *)
Lemma sorted_keeping_ties_unique (xs ys zs : list A) :
  ConsistentOn comparefn xs -> ys ⊆ xs -> zs ⊆ xs ->
  StronglySorted (inOrder comparefn) ys ->
  StronglySorted (inOrder comparefn) zs ->
  (forall tied : A -> bool,
     (forall a b, a ∈ xs -> b ∈ xs -> tied a = true -> tied b = true ->
                  inOrder comparefn a b) ->
     List.filter tied ys = List.filter tied zs) ->
  ys = zs.
Proof.
  intros Hcons. revert zs.
  induction ys as [|y ys IH]; intros zs Hys Hzs Hsy Hsz Hties.
  - destruct zs as [|z zs]; [done|].
    assert (Hz : z ∈ xs) by (apply Hzs; by left).
    specialize (Hties (tiedWith comparefn z) (tiedWith_tied xs z Hcons Hz)).
    simpl in Hties. by rewrite (tiedWith_refl xs z Hcons Hz) in Hties.
  - assert (Hy : y ∈ xs) by (apply Hys; by left).
    pose proof (Hties (tiedWith comparefn y) (tiedWith_tied xs y Hcons Hy))
      as Hfy.
    simpl in Hfy. rewrite (tiedWith_refl xs y Hcons Hy) in Hfy.
    destruct zs as [|z zs]; [done|].
    assert (Hz : z ∈ xs) by (apply Hzs; by left).
    apply StronglySorted_inv in Hsy as [Hsy Hyle].
    apply StronglySorted_inv in Hsz as [Hsz Hzle].
    assert (Hzy : tiedWith comparefn y z = true).
    { destruct (tiedWith comparefn y z) eqn:Hyz; [done|]. exfalso.
      simpl in Hfy. rewrite Hyz in Hfy.
      assert (Hyin : In y zs).
      { apply (proj1 (filter_In (tiedWith comparefn y) y zs)).
        rewrite <- Hfy. by left. }
      assert (Hle_zy : inOrder comparefn z y).
      { by apply (proj1 (Forall_forall _ _) Hzle y), list_elem_of_In. }
      pose proof (Hties (tiedWith comparefn z) (tiedWith_tied xs z Hcons Hz))
        as Hfz.
      simpl in Hfz. rewrite (tiedWith_refl xs z Hcons Hz) in Hfz.
      assert (Hle_yz : inOrder comparefn y z).
      { destruct (tiedWith comparefn z y) eqn:Hzy'.
        - by apply tiedWith_spec in Hzy' as [_ ?].
        - assert (Hzin : In z ys).
          { apply (proj1 (filter_In (tiedWith comparefn z) z ys)).
            rewrite Hfz. by left. }
          by apply (proj1 (Forall_forall _ _) Hyle z), list_elem_of_In. }
      assert (tiedWith comparefn y z = true) by by apply tiedWith_spec.
      congruence. }
    simpl in Hfy. rewrite Hzy in Hfy. injection Hfy as <- _.
    f_equal. apply IH; [| |done|done|].
    + intros a Ha. apply Hys. by right.
    + intros a Ha. apply Hzs. by right.
    + intros tied Htied. specialize (Hties tied Htied). simpl in Hties.
      destruct (tied y); [by injection Hties|done].
Qed.

(** Every arrangement of [xs] that is in order and keeps ties is the one
    [sort] returns: any stable sort agrees with the model. *)
Lemma sort_unique (xs ys : list A) :
  ConsistentOn comparefn xs -> ys ≡ₚ xs ->
  Sorted (inOrder comparefn) ys -> KeepsTies comparefn xs ys ->
  ys = Array.sort comparefn xs.
Proof.
  intros Hcons Hperm Hsorted Hties.
  assert (Hsub : Array.sort comparefn xs ⊆ xs).
  { intros a. by rewrite sort_Permutation. }
  apply (sorted_keeping_ties_unique xs); [done | | done | | |].
  - intros a. by rewrite Hperm.
  - apply (Sorted_StronglySorted_on xs); [done | | done].
    intros a. by rewrite Hperm.
  - apply (Sorted_StronglySorted_on xs); [done..|].
    apply sort_Sorted_on, Hcons.
  - intros tied Htied. rewrite (Hties tied Htied).
    symmetry. by apply sort_KeepsTies.
Qed.

End Sort.

(** ** The sort of V8 on a consistent comparator *)

Section Engine.
Context {A : Type} (comparefn : A -> A -> float) (xs : list A).
Hypothesis Hconsistent : ConsistentOn comparefn xs.
Hypothesis Hsymmetric : SymmetricOn comparefn xs.

Lemma less_monotone (pivot a b : A) :
  pivot ∈ xs -> a ∈ xs -> b ∈ xs ->
  inOrder comparefn a b ->
  V8.negative (comparefn pivot a) = true ->
  V8.negative (comparefn pivot b) = true.
Proof.
  intros Hp Ha Hb Hab Hless.
  destruct (V8.negative (comparefn pivot b)) eqn:Hpb; [done|].
  rewrite Hsymmetric in Hpb, Hless by done.
  destruct Hconsistent as [_ Htrans].
  pose proof (Htrans a b pivot Ha Hb Hp Hab Hpb) as Hap.
  unfold inOrder in Hap. congruence.
Qed.

Lemma greater_trans (a b c : A) :
  a ∈ xs -> b ∈ xs -> c ∈ xs ->
  Greater comparefn a b -> Greater comparefn b c -> Greater comparefn a c.
Proof.
  intros Ha Hb Hc Hab Hbc.
  destruct (Number.positive (comparefn a c)) eqn:Hac; [done|].
  destruct Hconsistent as [Hanti Htrans].
  pose proof (Hanti b c Hb Hc Hbc) as Hcb.
  pose proof (Htrans a c b Ha Hc Hb Hac Hcb) as Hab'.
  unfold inOrder in Hab'. congruence.
Qed.

(** *** The first run *)

Lemma ascendingRun_spec (previous : A) (ys run rest : list A) :
  previous ∈ xs -> ys ⊆ xs ->
  V8.ascendingRun comparefn previous ys = (run, rest) ->
  ys = run ++ rest /\ Sorted (inOrder comparefn) (previous :: run).
Proof.
  revert previous run rest.
  induction ys as [|current ys IH]; intros previous run rest Hp Hys Hrun.
  - injection Hrun as <- <-. split; [done|]. by repeat constructor.
  - simpl in Hrun.
    assert (Hc : current ∈ xs) by (apply Hys; by left).
    destruct (V8.negative (comparefn current previous)) eqn:Hless.
    + injection Hrun as <- <-. split; [done|]. by repeat constructor.
    + destruct (V8.ascendingRun comparefn current ys) as [run' rest'] eqn:Hrec.
      injection Hrun as <- <-.
      destruct (IH current run' rest' Hc) as [-> Hsorted]; [|done|].
      { intros y Hy. apply Hys. by right. }
      split; [done|]. constructor; [done|]. constructor.
      unfold inOrder. by rewrite <- Hsymmetric.
Qed.

Lemma descendingRun_spec (previous : A) (ys run rest : list A) :
  previous ∈ xs -> ys ⊆ xs ->
  V8.descendingRun comparefn previous ys = (run, rest) ->
  ys = run ++ rest /\ Descending comparefn (previous :: run).
Proof.
  revert previous run rest.
  induction ys as [|current ys IH]; intros previous run rest Hp Hys Hrun.
  - injection Hrun as <- <-. split; [done|]. by repeat constructor.
  - simpl in Hrun.
    assert (Hc : current ∈ xs) by (apply Hys; by left).
    destruct (V8.negative (comparefn current previous)) eqn:Hless.
    + destruct (V8.descendingRun comparefn current ys) as [run' rest'] eqn:Hrec.
      injection Hrun as <- <-.
      destruct (IH current run' rest' Hc) as [Heq Hdesc]; [|done|].
      { intros y Hy. apply Hys. by right. }
      assert (Hrun' : run' ⊆ xs).
      { intros y Hy. apply Hys. right. rewrite Heq. apply elem_of_app. by left. }
      subst ys. split; [done|].
      rewrite Hsymmetric in Hless by done.
      constructor; [done|].
      apply Forall_cons. split; [done|].
      apply StronglySorted_inv in Hdesc as [_ Hall].
      apply Forall_forall. intros y Hy.
      apply (greater_trans previous current y); [done.. | by apply Hrun' | done |].
      by apply (proj1 (Forall_forall _ _) Hall).
    + injection Hrun as <- <-. split; [done|]. by repeat constructor.
Qed.

Lemma Descending_tied (tied : A -> bool) (a : A) (ys : list A) :
  Tied comparefn xs tied -> a ∈ xs -> ys ⊆ xs ->
  Descending comparefn (a :: ys) -> tied a = true ->
  List.filter tied ys = [].
Proof.
  intros Htied Ha Hys Hdesc Hta.
  apply StronglySorted_inv in Hdesc as [_ Hall].
  induction ys as [|b ys IH]; [done|]. simpl.
  apply Forall_cons in Hall as [Hab Hall].
  assert (Hb : b ∈ xs) by (apply Hys; by left).
  destruct (tied b) eqn:Htb.
  - pose proof (Htied a b Ha Hb Hta Htb) as Hin.
    unfold inOrder, Greater in *. congruence.
  - apply IH; [|done]. intros y Hy. apply Hys. by right.
Qed.

Lemma Descending_filter_short (tied : A -> bool) (ys : list A) :
  Tied comparefn xs tied -> ys ⊆ xs -> Descending comparefn ys ->
  (length (List.filter tied ys) <= 1)%nat.
Proof.
  intros Htied Hys Hdesc. induction ys as [|a ys IH]; simpl; [lia|].
  assert (Hys' : ys ⊆ xs) by (intros y Hy; apply Hys; by right).
  destruct (tied a) eqn:Hta.
  - rewrite (Descending_tied tied a ys); [simpl; lia | done | | done..].
    apply Hys. by left.
  - apply IH; [done|]. by apply StronglySorted_inv in Hdesc as [? _].
Qed.

Lemma Descending_rev_ties (tied : A -> bool) (ys : list A) :
  Tied comparefn xs tied -> ys ⊆ xs -> Descending comparefn ys ->
  List.filter tied (rev ys) = List.filter tied ys.
Proof.
  intros Htied Hys Hdesc. rewrite filter_rev.
  pose proof (Descending_filter_short tied ys Htied Hys Hdesc) as Hshort.
  destruct (List.filter tied ys) as [|a [|b l]]; simpl in *; [done..|lia].
Qed.

Lemma Descending_rev_Sorted (ys : list A) :
  ys ⊆ xs -> Descending comparefn ys ->
  Sorted (inOrder comparefn) (rev ys).
Proof.
  intros Hys Hdesc. apply StronglySorted_Sorted.
  induction ys as [|a ys IH]; simpl; [constructor|].
  apply StronglySorted_inv in Hdesc as [Hdesc Hall].
  assert (Hys' : ys ⊆ xs) by (intros y Hy; apply Hys; by right).
  assert (Ha : a ∈ xs) by (apply Hys; by left).
  specialize (IH Hys' Hdesc).
  assert (Hsnoc : forall l : list A,
            StronglySorted (inOrder comparefn) l ->
            Forall (fun y => inOrder comparefn y a) l ->
            StronglySorted (inOrder comparefn) (l ++ [a])).
  { induction l as [|y l IHl]; intros Hl Hle; simpl.
    - by repeat constructor.
    - apply StronglySorted_inv in Hl as [Hl Hyl].
      apply Forall_cons in Hle as [Hya Hle].
      constructor; [by apply IHl|].
      apply Forall_app. split; [done|]. by constructor. }
  apply Hsnoc; [done|].
  apply Forall_forall. intros y Hy%list_elem_of_In%in_rev%list_elem_of_In.
  destruct Hconsistent as [Hanti _].
  apply Hanti; [done | by apply Hys' |].
  by apply (proj1 (Forall_forall _ _) Hall).
Qed.

(** The first run is sorted, holds the elements of the prefix it was made
    of, and keeps ties as they stand in that prefix. *)
Lemma countAndMakeRun_spec (zs run rest : list A) :
  zs ⊆ xs ->
  V8.countAndMakeRun comparefn zs = (run, rest) ->
  exists processed,
    zs = processed ++ rest /\ run ≡ₚ processed
    /\ Sorted (inOrder comparefn) run
    /\ forall tied, Tied comparefn xs tied ->
                    List.filter tied run = List.filter tied processed.
Proof.
  intros Hzs. unfold V8.countAndMakeRun.
  destruct zs as [|a [|b ys]].
  - intros [= <- <-]. exists []. by split_and!.
  - intros [= <- <-]. exists [a]. split_and!; [done..| |done].
    by repeat constructor.
  - assert (Ha : a ∈ xs) by (apply Hzs; by left).
    assert (Hb : b ∈ xs) by (apply Hzs; by right; left).
    assert (Hys : ys ⊆ xs).
    { intros y Hy. apply Hzs. by right; right. }
    destruct (V8.negative (comparefn b a)) eqn:Hless.
    + destruct (V8.descendingRun comparefn b ys) as [run' rest'] eqn:Hrun.
      intros [= <- <-].
      destruct (descendingRun_spec b ys run' rest' Hb Hys Hrun)
        as [-> Hdesc].
      exists (a :: b :: run').
      assert (Hsub : a :: b :: run' ⊆ xs).
      { intros y Hy. apply Hzs.
        apply elem_of_cons in Hy as [->|Hy]; [by left|]. right.
        apply elem_of_cons in Hy as [->|Hy]; [by left|]. right.
        apply elem_of_app. by left. }
      assert (Hall : Descending comparefn (a :: b :: run')).
      { rewrite Hsymmetric in Hless by done.
        constructor; [done|]. apply Forall_cons. split; [done|].
        apply StronglySorted_inv in Hdesc as [_ Hall].
        apply Forall_forall. intros y Hy.
        apply (greater_trans a b y); [done.. | | done |].
        - apply Hsub. by right; right.
        - by apply (proj1 (Forall_forall _ _) Hall). }
      change ((rev run' ++ [b]) ++ [a]) with (rev (a :: b :: run')).
      split_and!.
      * done.
      * symmetry. apply Permutation_rev.
      * by apply Descending_rev_Sorted.
      * intros tied Htied. by apply Descending_rev_ties.
    + destruct (V8.ascendingRun comparefn b ys) as [run' rest'] eqn:Hrun.
      intros [= <- <-].
      destruct (ascendingRun_spec b ys run' rest' Hb Hys Hrun)
        as [-> Hsorted].
      exists (a :: b :: run'). split_and!; [done | done | | done].
      constructor; [done|]. constructor.
      unfold inOrder. by rewrite <- Hsymmetric.
Qed.

(** *** The binary search *)

Lemma StronglySorted_lookup {B} (R : B -> B -> Prop) (l : list B)
    (i j : nat) (a b : B) :
  StronglySorted R l -> (i < j)%nat ->
  l !! i = Some a -> l !! j = Some b -> R a b.
Proof.
  intros Hl. revert i j. induction Hl as [|c l Hl IH Hall]; intros i j Hij Hi Hj.
  - done.
  - destruct j as [|j]; [lia|]. simpl in Hj. destruct i as [|i]; simpl in Hi.
    + injection Hi as ->.
      apply (proj1 (Forall_forall _ _) Hall). by eapply list_elem_of_lookup_2.
    + apply (IH i j); [lia | done..].
Qed.

(** The search ends at the place where the elements that [pivot] is not
    less than end and the elements it is less than begin. *)
Lemma insertionPoint_spec (pivot : A) (sorted : list A)
    (steps left right : nat) :
  pivot ∈ xs -> sorted ⊆ xs ->
  StronglySorted (inOrder comparefn) sorted ->
  (left <= right <= length sorted)%nat -> (right - left <= steps)%nat ->
  (forall i y, (i < left)%nat -> sorted !! i = Some y ->
               V8.negative (comparefn pivot y) = false) ->
  (forall i y, (right <= i)%nat -> sorted !! i = Some y ->
               V8.negative (comparefn pivot y) = true) ->
  (V8.insertionPoint comparefn pivot sorted left right steps
   <= length sorted)%nat
  /\ (forall i y,
        (i < V8.insertionPoint comparefn pivot sorted left right steps)%nat ->
        sorted !! i = Some y -> V8.negative (comparefn pivot y) = false)
  /\ (forall i y,
        (V8.insertionPoint comparefn pivot sorted left right steps <= i)%nat ->
        sorted !! i = Some y -> V8.negative (comparefn pivot y) = true).
Proof.
  intros Hpivot Hsub Hsorted. revert left right.
  induction steps as [|steps IH]; intros left right Hrange Hsteps Hlow Hhigh.
  - simpl. assert (left = right) as -> by lia. split_and!; [lia | done..].
  - simpl. destruct (Nat.ltb_spec left right) as [Hlt|Hge].
    2: { assert (left = right) as -> by lia. split_and!; [lia | done..]. }
    assert (Hhalf : (Nat.div2 (right - left) < right - left)%nat)
      by (apply Nat.lt_div2; lia).
    remember (Nat.div2 (right - left)) as half eqn:Hdef in *. clear Hdef.
    remember (left + half)%nat as mid eqn:Hmid.
    destruct (lookup_lt_is_Some_2 sorted mid) as [x Hx]; [lia|].
    rewrite Hx.
    assert (Hxin : x ∈ xs) by (by eapply Hsub, list_elem_of_lookup_2).
    destruct (V8.negative (comparefn pivot x)) eqn:Hless.
    + apply IH; [lia | lia | done |].
      intros i y Hi Hy.
      destruct (decide (i = mid)) as [->|Hne]; [congruence|].
      apply (less_monotone pivot x y); [done.. | | | done].
      * by eapply Hsub, list_elem_of_lookup_2.
      * apply (StronglySorted_lookup _ sorted mid i); [done | lia | done..].
    + apply IH; [lia | lia | | done].
      intros i y Hi Hy.
      destruct (decide (i = mid)) as [->|Hne]; [congruence|].
      destruct (V8.negative (comparefn pivot y)) eqn:Hy'; [|done].
      rewrite (less_monotone pivot y x) in Hless; [done.. | | | | done].
      * by eapply Hsub, list_elem_of_lookup_2.
      * done.
      * apply (StronglySorted_lookup _ sorted i mid); [done | lia | done..].
Qed.

(** *** The insertions *)

Lemma Sorted_middle {B} (R : B -> B -> Prop) (l1 l2 : list B) (x : B) :
  Sorted R (l1 ++ l2) ->
  (forall a, last l1 = Some a -> R a x) ->
  (forall b, head l2 = Some b -> R x b) ->
  Sorted R (l1 ++ x :: l2).
Proof.
  induction l1 as [|a l1 IH]; simpl; intros Hsorted Hlast Hhead.
  - constructor; [done|]. destruct l2; constructor. by apply Hhead.
  - apply Sorted_inv in Hsorted as [Hsorted Hhd].
    constructor.
    + apply IH; [done | | done].
      intros b Hb. apply Hlast. by destruct l1.
    + destruct l1 as [|c l1]; simpl in *.
      * constructor. by apply Hlast.
      * constructor. by apply HdRel_inv in Hhd.
Qed.

Lemma filter_none {B} (p : B -> bool) (l : list B) :
  (forall b, b ∈ l -> p b = false) -> List.filter p l = [].
Proof.
  induction l as [|b l IH]; intros Hnone; simpl; [done|].
  rewrite (Hnone b) by by left. apply IH. intros c Hc. apply Hnone. by right.
Qed.

(** An insertion keeps the sorted part sorted, and puts the pivot after
    the elements it is tied with. *)
Lemma binaryInsert_spec (sorted : list A) (pivot : A) :
  pivot ∈ xs -> sorted ⊆ xs -> Sorted (inOrder comparefn) sorted ->
  V8.binaryInsert comparefn sorted pivot ≡ₚ sorted ++ [pivot]
  /\ Sorted (inOrder comparefn) (V8.binaryInsert comparefn sorted pivot)
  /\ forall tied, Tied comparefn xs tied ->
       List.filter tied (V8.binaryInsert comparefn sorted pivot)
       = List.filter tied (sorted ++ [pivot]).
Proof.
  intros Hpivot Hsub Hsorted. unfold V8.binaryInsert.
  assert (Hstrong : StronglySorted (inOrder comparefn) sorted)
    by by apply (Sorted_StronglySorted_on comparefn xs).
  destruct (insertionPoint_spec pivot sorted (length sorted) 0
              (length sorted) Hpivot Hsub Hstrong)
    as (Hk & Hlow & Hhigh); [lia | lia | intros; lia | |].
  { intros i y Hi Hy. apply lookup_lt_Some in Hy. lia. }
  set (k := V8.insertionPoint comparefn pivot sorted 0 (length sorted)
              (length sorted)) in *.
  destruct Hconsistent as [Hanti _].
  split_and!.
  - rewrite <- Permutation_middle, <- (Permutation_cons_append _ pivot).
    by rewrite take_drop.
  - apply Sorted_middle.
    + by rewrite take_drop.
    + intros a Ha.
      destruct (decide (k = 0%nat)) as [Hzero|Hpos];
        [by rewrite Hzero in Ha|].
      rewrite last_lookup, length_take, lookup_take_lt in Ha by lia.
      assert (Hain : a ∈ xs) by (by eapply Hsub, list_elem_of_lookup_2).
      unfold inOrder. rewrite <- Hsymmetric by done.
      eapply Hlow; [|exact Ha]. lia.
    + intros b Hb. rewrite head_lookup, lookup_drop, Nat.add_0_r in Hb.
      assert (Hbin : b ∈ xs) by (by eapply Hsub, list_elem_of_lookup_2).
      apply Hanti; [done..|]. rewrite <- Hsymmetric by done.
      by apply (Hhigh k).
  - intros tied Htied.
    replace (sorted ++ [pivot])
      with ((take k sorted ++ drop k sorted) ++ [pivot])
      by by rewrite take_drop.
    rewrite !List.filter_app. simpl.
    destruct (tied pivot) eqn:Htp; [|by rewrite app_nil_r].
    rewrite (filter_none tied (drop k sorted)); [by rewrite app_nil_r|].
    intros b Hb. apply list_elem_of_lookup in Hb as [i Hi].
    rewrite lookup_drop in Hi.
    assert (Hbin : b ∈ xs) by (by eapply Hsub, list_elem_of_lookup_2).
    destruct (tied b) eqn:Htb; [|done].
    pose proof (Htied b pivot Hbin Hpivot Htb Htp) as Hin.
    unfold inOrder in Hin. rewrite <- Hsymmetric in Hin by done.
    rewrite (Hhigh (k + i)%nat b) in Hin; [done | lia | done].
Qed.

Lemma foldl_binaryInsert_spec (rest run processed : list A) :
  processed ⊆ xs -> rest ⊆ xs -> run ≡ₚ processed ->
  Sorted (inOrder comparefn) run ->
  (forall tied, Tied comparefn xs tied ->
                List.filter tied run = List.filter tied processed) ->
  foldl (V8.binaryInsert comparefn) run rest ≡ₚ processed ++ rest
  /\ Sorted (inOrder comparefn) (foldl (V8.binaryInsert comparefn) run rest)
  /\ forall tied, Tied comparefn xs tied ->
       List.filter tied (foldl (V8.binaryInsert comparefn) run rest)
       = List.filter tied (processed ++ rest).
Proof.
  revert run processed.
  induction rest as [|pivot rest IH];
    intros run processed Hprocessed Hrest Hperm Hsorted Hties; simpl.
  - rewrite app_nil_r. by split_and!.
  - assert (Hpivot : pivot ∈ xs) by (apply Hrest; by left).
    assert (Hrun : run ⊆ xs) by (intros y Hy; apply Hprocessed; by rewrite <- Hperm).
    destruct (binaryInsert_spec run pivot Hpivot Hrun Hsorted)
      as (Hperm' & Hsorted' & Hties').
    destruct (IH (V8.binaryInsert comparefn run pivot) (processed ++ [pivot]))
      as (Hp & Hs & Ht).
    + intros y [Hy | ->%list_elem_of_singleton]%elem_of_app; [by apply Hprocessed|done].
    + intros y Hy. apply Hrest. by right.
    + by rewrite Hperm', Hperm.
    + done.
    + intros tied Htied. rewrite (Hties' tied Htied), !List.filter_app.
      by rewrite (Hties tied Htied).
    + rewrite <- app_assoc in Hp, Ht. by split_and!.
Qed.

End Engine.

(** On a consistent comparator that reads the same from both sides, V8
    returns what the stable insertion sort returns: the one sorted
    arrangement that keeps ties. *)
Lemma V8_sort_consistent {A} (comparefn : A -> A -> float) (xs : list A) :
  ConsistentOn comparefn xs -> SymmetricOn comparefn xs ->
  (length xs < 64)%nat ->
  V8.sort comparefn xs = Some (Array.sort comparefn xs).
Proof.
  intros Hconsistent Hsymmetric Hshort. unfold V8.sort.
  destruct (Nat.ltb_spec (length xs) 64); [|lia].
  destruct (V8.countAndMakeRun comparefn xs) as [run rest] eqn:Hrun.
  destruct (countAndMakeRun_spec comparefn xs Hconsistent Hsymmetric
              xs run rest) as (processed & Hxs & Hperm & Hsorted & Hties);
    [done.. |].
  destruct (foldl_binaryInsert_spec comparefn xs Hconsistent Hsymmetric
              rest run processed) as (Hp & Hs & Ht); [| | done..|].
  { intros y Hy. rewrite Hxs. apply elem_of_app. by left. }
  { intros y Hy. rewrite Hxs. apply elem_of_app. by right. }
  f_equal. apply sort_unique; [done | by rewrite Hp, Hxs | done |].
  intros tied Htied. rewrite (Ht tied Htied). by rewrite <- Hxs.
Qed.

(** ** The comparator of [filteredData] *)

Section Comparator.
Context `{Host}.


Lemma compareRows_text direction column a b :
  isNaN (Row_get a (Z.of_nat column)) = true
  \/ isNaN (Row_get b (Z.of_nat column)) = true ->
  compareRows direction column a b =
    match direction with
    | asc => localeCompare (ToString (Row_get a (Z.of_nat column)))
               (ToString (Row_get b (Z.of_nat column)))
    | desc => localeCompare (ToString (Row_get b (Z.of_nat column)))
                (ToString (Row_get a (Z.of_nat column)))
    end.
Proof.
  intros Hnan. unfold compareRows.
  destruct Hnan as [-> | ->]; rewrite ?andb_false_r; by destruct direction.
Qed.

(** ["desc"] is ["asc"] with the arguments exchanged. *)
Lemma compareRows_desc column a b :
  compareRows desc column a b = compareRows asc column b a.
Proof.
  unfold compareRows.
  rewrite (andb_comm (negb (isNaN (Row_get b _)))).
  by destruct (_ && _).
Qed.

Lemma compareRows_Antisymmetric direction column :
  HostLaws H -> Antisymmetric (compareRows direction column).
Proof.
  intros Hlaws a b.
  assert (Hasc : forall a b,
             Number.positive (compareRows asc column a b) = true ->
             Number.positive (compareRows asc column b a) = false).
  { clear a b. intros a b. unfold compareRows.
    rewrite (andb_comm (negb (isNaN (Row_get b _)))).
    destruct (_ && _); simpl; [apply sub_positive_antisym | apply Hlaws]. }
  destruct direction; [apply Hasc|].
  rewrite !compareRows_desc. apply Hasc.
Qed.

End Comparator.

(** On a column that mixes numerals and other text the comparator is not
    a consistent comparator: as numbers 2 < 10, as strings "10" < "1a" and
    "1a" < "2". *)
Example compareRows_cycle :
  Number.positive
    (compareRows (H := refHost) asc 0 [CText "10"] [CText "2"]) = true
  /\ Number.positive
       (compareRows (H := refHost) asc 0 [CText "1a"] [CText "10"]) = true
  /\ Number.positive
       (compareRows (H := refHost) asc 0 [CText "2"] [CText "1a"]) = true
  /\ ~ ConsistentOn (compareRows (H := refHost) asc 0)
        [[CText "2"]; [CText "10"]; [CText "1a"]].
Proof.
  split_and!; [reflexivity..|].
  intros [_ Htrans].
  assert (Hcycle : inOrder (compareRows (H := refHost) asc 0)
                     [CText "2"] [CText "1a"]).
  { apply (Htrans _ [CText "10"]); [set_solver.. | reflexivity | reflexivity]. }
  discriminate Hcycle.
Qed.

(** ** Arrays by reference: what each operation does to the heap *)

Lemma new_spec (xs : list Row) (h : Heap) :
  exists r, ArrayRef.new xs h = (r, <[r := xs]> h) /\ h !! r = None.
Proof.
  exists (fresh (dom h)). split; [done|].
  apply not_elem_of_dom, is_fresh.
Qed.

(** Reading an array and building a new one from its contents leaves
    every array of the heap as it was. *)
Lemma read_new_spec (f : list Row -> list Row) (r : Ref) (xs : list Row)
    (h : Heap) :
  h !! r = Some xs ->
  exists r' h', (ys ← ArrayRef.read r; ArrayRef.new (f ys)) h = (r', h')
    /\ h' !! r' = Some (f xs) /\ h ⊆ h' /\ h !! r' = None.
Proof.
  intros Hr. destruct (new_spec (f xs) h) as (r' & Hnew & Hfresh).
  exists r', (<[r' := f xs]> h).
  unfold mbind, Prog_bind, ArrayRef.read. rewrite Hr. simpl.
  split_and!; [done | apply lookup_insert_eq | by apply insert_subseteq | done].
Qed.

Section PageRefSpec.
Context `{Host}.

(** The sorting step: the result holds the sorted rows, and the array it
    was given, like every other array, holds what it held before; when a
    sort column is set the result is a new array. *)
Lemma sortStep_ref_spec (st : State) (rows : Ref) (xs : list Row) (h : Heap) :
  h !! rows = Some xs ->
  exists r h', sortStep_ref st rows h = (r, h')
    /\ h' !! r = Some (sortRows st xs) /\ h ⊆ h'
    /\ (is_Some (sortColumn st) -> h !! r = None).
Proof.
  intros Hrows. unfold sortStep_ref, sortRows.
  destruct (sortColumn st) as [column|].
  2: { exists rows, h. split_and!; [done..|]. by intros [? ?]. }
  destruct (read_new_spec id rows xs h Hrows)
    as (copy & h1 & Hcopy & Hh1 & Hsub & Hfresh).
  set (sorted := Array.sort (compareRows (sortDirection st) column) xs).
  exists copy, (<[copy := sorted]> h1).
  unfold ArrayRef.spread. unfold mbind at 1. unfold Prog_bind at 1.
  unfold id in Hcopy. rewrite Hcopy.
  unfold ArrayRef.sort, mbind, Prog_bind, ArrayRef.read, ArrayRef.write,
    mret, Prog_ret.
  rewrite Hh1. simpl.
  split_and!; [done | apply lookup_insert_eq | | done].
  by apply insert_subseteq_r.
Qed.

End PageRefSpec.

Lemma Computes_ret : Computes mret id.
Proof. intros r xs h Hr. by exists r, h. Qed.

Lemma Computes_read_new (f : list Row -> list Row) :
  Computes (fun r => ys ← ArrayRef.read r; ArrayRef.new (f ys)) f.
Proof.
  intros r xs h Hr.
  destruct (read_new_spec f r xs h Hr) as (r' & h' & ? & ? & ? & _).
  by exists r', h'.
Qed.

Lemma Computes_bind step1 f1 step2 f2 :
  Computes step1 f1 -> Computes step2 f2 ->
  Computes (fun r => r1 ← step1 r; step2 r1) (fun xs => f2 (f1 xs)).
Proof.
  intros H1 H2 r xs h Hr.
  destruct (H1 r xs h Hr) as (r1 & h1 & Hstep1 & Hr1 & Hsub1).
  destruct (H2 r1 (f1 xs) h1 Hr1) as (r2 & h2 & Hstep2 & Hr2 & Hsub2).
  exists r2, h2. unfold mbind, Prog_bind. rewrite Hstep1.
  split_and!; [done..|]. by etrans.
Qed.

Lemma Computes_ext step f g :
  (forall xs, f xs = g xs) -> Computes step f -> Computes step g.
Proof.
  intros Hfg Hstep r xs h Hr.
  destruct (Hstep r xs h Hr) as (r' & h' & ? & ? & ?).
  exists r', h'. by rewrite <- Hfg.
Qed.

Section PipelineRef.
Context `{Host}.

Lemma sortStep_ref_Computes (st : State) :
  Computes (sortStep_ref st) (sortRows st).
Proof.
  intros r xs h Hr.
  destruct (sortStep_ref_spec st r xs h Hr) as (r' & h' & ? & ? & ? & _).
  by exists r', h'.
Qed.

(** [filteredData] by reference computes [filteredData] by value, and
    changes no array that existed before: not [data], and none of the
    intermediate arrays. *)
Lemma filteredData_ref_spec (st : State) (dataRef : Ref) (h : Heap) :
  h !! dataRef = Some (data st) ->
  exists r h', filteredData_ref st dataRef h = (r, h')
    /\ h' !! r = Some (filteredData st) /\ h ⊆ h'.
Proof.
  intros Hr.
  assert (Hpipeline : Computes (filteredData_ref st)
            (fun xs => sortRows st (columnSelection st (dateFilter st
                         (textFilter st (Array.slice_from xs 1)))))).
  { unfold filteredData_ref.
    apply (Computes_bind _ (fun xs => Array.slice_from xs 1) _
             (fun xs => sortRows st (columnSelection st (dateFilter st
                          (textFilter st xs))))).
    { apply (Computes_read_new (fun xs => Array.slice_from xs 1)). }
    apply (Computes_bind _ (textFilter st) _
             (fun xs => sortRows st (columnSelection st (dateFilter st xs)))).
    { unfold textFilter. destruct (JSString.truthy (filterText st)).
      - apply (Computes_read_new (List.filter _)).
      - apply Computes_ret. }
    apply (Computes_bind _ (dateFilter st) _
             (fun xs => sortRows st (columnSelection st xs))).
    { unfold dateFilter. destruct (_ || _); [|apply Computes_ret].
      simpl. destruct (negb _); [|apply Computes_ret].
      apply (Computes_read_new (List.filter _)). }
    apply (Computes_bind _ (columnSelection st) _ (sortRows st)).
    { unfold columnSelection. destruct (_ && _); [|apply Computes_ret].
      apply (Computes_read_new (List.map _)). }
    apply sortStep_ref_Computes. }
  apply (Hpipeline dataRef (data st) h Hr).
Qed.

End PipelineRef.

(** ** Sorting *)

Lemma filter_true {A} (xs : list A) : List.filter (fun _ => true) xs = xs.
Proof. induction xs as [|x xs IH]; simpl; [done|]. by rewrite IH. Qed.

(** C4: for every row sequence and every sort spec on which the comparator
    is a consistent comparator, sorting is idempotent (sorting the sorted
    sequence again returns it, and a sequence that is already in order is
    returned as it is), and it is stable: any rows that compare equal to
    one another appear in the result in their original relative order.
    This is the result of every engine that follows ECMAScript, and the
    one V8 computes. *)
Theorem sort_idempotent_and_stable `{Host} (st : State) (rows : list Row) :
  HostLaws H ->
  consistentRows st rows ->
  sortRows st (sortRows st rows) = sortRows st rows
  /\ (sortedRows st rows -> sortRows st rows = rows)
  /\ (forall tied : Row -> bool,
        (forall a b, a ∈ rows -> b ∈ rows ->
                     tied a = true -> tied b = true -> tiedRows st a b) ->
        List.filter tied (sortRows st rows) = List.filter tied rows)
  /\ (forall sorted : list Row,
        sortedRows st sorted -> sorted ≡ₚ rows ->
        (forall tied : Row -> bool,
            (forall a b, a ∈ rows -> b ∈ rows ->
                         tied a = true -> tied b = true -> tiedRows st a b) ->
            List.filter tied sorted = List.filter tied rows) ->
        sorted = sortRows st rows)
  /\ ((length rows < 64)%nat -> sortRows_V8 st rows = Some (sortRows st rows)).
Proof.
  intros Hlaws. unfold consistentRows, sortRows, sortRows_V8, sortedRows, tiedRows.
  destruct (sortColumn st) as [column|].
  2: { intros _. split_and!; try done.
       intros sorted _ _ Hties.
       rewrite <- (filter_true sorted), <- (filter_true rows). by apply Hties. }
  intros [Hconsistent Hsymmetric].
  assert (Hties : forall tied : Row -> bool,
            (forall a b, a ∈ rows -> b ∈ rows ->
               tied a = true -> tied b = true ->
               Number.positive
                 (compareRows (sortDirection st) column a b) = false
               /\ Number.positive
                    (compareRows (sortDirection st) column b a) = false) ->
            Tied (compareRows (sortDirection st) column) rows tied).
  { intros tied Htied a b Ha Hb Hta Htb. by destruct (Htied a b Ha Hb Hta Htb). }
  split_and!.
  - by apply sort_idempotent, compareRows_Antisymmetric.
  - apply sort_of_Sorted.
  - intros tied Htied. by apply sort_KeepsTies, Hties.
  - intros sorted Hsorted Hperm Hkept.
    apply sort_unique; [done..|].
    intros tied Htied. apply Hkept.
    intros a b Ha Hb Hta Htb. split; [by apply Htied|].
    by apply Htied.
  - intros Hshort. by apply V8_sort_consistent.
Qed.

Lemma sort_idempotent_and_stable_witness :
  sortRows (H := refHost) (handleSort 1 exampleState)
    (sortRows (H := refHost) (handleSort 1 exampleState) rowsWithTie)
  = sortRows (H := refHost) (handleSort 1 exampleState) rowsWithTie
  /\ sortRows (H := refHost) (handleSort 1 exampleState) rowsWithTie
     = [[CText "2024-01-02"; CText "100"; CText "10"];
        [CText "2024-01-01"; CText "200"; CText "5"];
        [CText "2024-01-03"; CText "200"; CText "7"]]
  /\ List.filter revenueIs200
       (sortRows (H := refHost) (handleSort 1 exampleState) rowsWithTie)
     = [[CText "2024-01-01"; CText "200"; CText "5"];
        [CText "2024-01-03"; CText "200"; CText "7"]]
  /\ sortRows_V8 (H := refHost) (handleSort 1 exampleState) rowsWithTie
     = Some (sortRows (H := refHost) (handleSort 1 exampleState) rowsWithTie).
Proof.
  destruct (sort_idempotent_and_stable (H := refHost)
              (handleSort 1 exampleState) rowsWithTie refHost_laws)
    as (Hidempotent & _ & Hstable & _ & Hengine).
  { split.
    - split.
      + intros a b Ha Hb.
        repeat (apply elem_of_cons in Ha as [-> | Ha]);
          try (by apply elem_of_nil in Ha);
          repeat (apply elem_of_cons in Hb as [-> | Hb]);
          try (by apply elem_of_nil in Hb);
          vm_compute; congruence.
      + intros a b c Ha Hb Hc.
        repeat (apply elem_of_cons in Ha as [-> | Ha]);
          try (by apply elem_of_nil in Ha);
          repeat (apply elem_of_cons in Hb as [-> | Hb]);
          try (by apply elem_of_nil in Hb);
          repeat (apply elem_of_cons in Hc as [-> | Hc]);
          try (by apply elem_of_nil in Hc);
          vm_compute; congruence.
    - intros a b Ha Hb.
      repeat (apply elem_of_cons in Ha as [-> | Ha]);
        try (by apply elem_of_nil in Ha);
        repeat (apply elem_of_cons in Hb as [-> | Hb]);
        try (by apply elem_of_nil in Hb);
        vm_compute; reflexivity. }
  split_and!; [exact Hidempotent | reflexivity | | apply Hengine; simpl; lia].
  rewrite (Hstable revenueIs200); [reflexivity|].
  intros a b _ _ Ha Hb. unfold tiedRows, revenueIs200, sortKey in *. simpl.
  unfold compareRows, isNaN, ToNumber.
  destruct (Row_get a (Z.of_nat 1)) as [sa| |]; try done.
  destruct (Row_get b (Z.of_nat 1)) as [sb| |]; try done.
  apply String.eqb_eq in Ha as ->. apply String.eqb_eq in Hb as ->.
  by vm_compute.
Defined.

(** On a column that mixes numerals and other text, V8 does not keep
    ties in order: the codes 2 and 02 compare equal, 2 stands before 02
    in the table, and 02 stands before 2 in the sorted rows.  (The first
    run is 0, 1x, 2; the binary search then puts 1 after 0 and 02 after
    1, before 1x, which it is less than as text.) *)
Lemma sort_stability_counterexample :
  sortRows_V8 (H := refHost) mixedState (drop 1 mixedTable)
  = Some [[CText "0"]; [CText "1"]; [CText "02"]; [CText "1x"]; [CText "2"]]
  /\ (forall a b, a ∈ drop 1 mixedTable -> b ∈ drop 1 mixedTable ->
                  codeIsTwo a = true -> codeIsTwo b = true ->
                  tiedRows (H := refHost) mixedState a b)
  /\ List.filter codeIsTwo (drop 1 mixedTable) = [[CText "2"]; [CText "02"]]
  /\ List.filter codeIsTwo
       [[CText "0"]; [CText "1"]; [CText "02"]; [CText "1x"]; [CText "2"]]
     = [[CText "02"]; [CText "2"]]
  /\ ~ consistentRows (H := refHost) mixedState (drop 1 mixedTable)
  /\ ~ (forall tied : Row -> bool,
          (forall a b, a ∈ drop 1 mixedTable -> b ∈ drop 1 mixedTable ->
                       tied a = true -> tied b = true ->
                       tiedRows (H := refHost) mixedState a b) ->
          forall sorted,
            sortRows_V8 (H := refHost) mixedState (drop 1 mixedTable)
            = Some sorted ->
            List.filter tied sorted = List.filter tied (drop 1 mixedTable)).
Proof.
  assert (Htied : forall a b,
            a ∈ drop 1 mixedTable -> b ∈ drop 1 mixedTable ->
            codeIsTwo a = true -> codeIsTwo b = true ->
            tiedRows (H := refHost) mixedState a b).
  { intros a b Ha Hb.
    repeat (apply elem_of_cons in Ha as [-> | Ha]);
      try (by apply elem_of_nil in Ha);
      repeat (apply elem_of_cons in Hb as [-> | Hb]);
      try (by apply elem_of_nil in Hb);
      try discriminate; intros _ _; by vm_compute. }
  split_and!; [reflexivity | exact Htied | reflexivity | reflexivity | |].
  2: { intros Hstable.
       by specialize (Hstable codeIsTwo Htied _ eq_refl). }
  intros [[_ Htrans] _].
  assert (Hcycle : inOrder (compareRows (H := refHost) asc 0)
                     [CText "1x"] [CText "02"]).
  { apply (Htrans _ [CText "2"]); [set_solver.. | reflexivity | reflexivity]. }
  discriminate Hcycle.
Qed.



(** ** Pagination *)

Lemma paginatedRows_take_drop (rows : list Row) (page : Z) :
  1 <= page ->
  paginatedRows rows page
  = take 10 (drop (Z.to_nat (rowsPerPage * (page - 1))) rows).
Proof.
  intros Hpage. unfold paginatedRows, rowsPerPage.
  rewrite slice_nonneg by lia. f_equal; [|f_equal]; lia.
Qed.

(** The ceiling of [n / 10], in integers. *)
Lemma totalPages_div (rows : list Row) :
  totalPages rows = (Z.of_nat (length rows) + 9) / 10.
Proof.
  unfold totalPages, rowsPerPage, Qceiling, Qfloor. simpl.
  generalize (Z.of_nat (length rows)). intros n.
  rewrite Z.mul_1_r. Z.div_mod_to_equations. lia.
Qed.

(** C6: with [n] rows and pages of 10, [totalPages] is the ceiling of
    [n / 10]; the rows of page [p] are the slice from [(p - 1) * 10] to
    [p * 10], so a page beyond the last one is empty; and the pages
    [1 .. totalPages], concatenated in order, are the whole sequence. *)
Theorem pagination_partitions (rows : list Row) :
  (rowsPerPage * (totalPages rows - 1) < Z.of_nat (length rows)
     <= rowsPerPage * totalPages rows)
  /\ (forall page, 1 <= page ->
        paginatedRows rows page
        = take (Z.to_nat rowsPerPage)
            (drop (Z.to_nat (rowsPerPage * (page - 1))) rows))
  /\ (forall page, totalPages rows < page -> paginatedRows rows page = [])
  /\ concat (List.map (paginatedRows rows) (pageNumbers (totalPages rows)))
     = rows.
Proof.
  pose proof (totalPages_div rows) as Htotal.
  assert (Hceil : rowsPerPage * (totalPages rows - 1) < Z.of_nat (length rows)
                    <= rowsPerPage * totalPages rows).
  { rewrite Htotal. unfold rowsPerPage. Z.div_mod_to_equations. lia. }
  unfold rowsPerPage in *. split_and!; [lia | lia | ..].
  - intros page Hpage. by apply paginatedRows_take_drop.
  - intros page Hpage. rewrite paginatedRows_take_drop by lia.
    unfold rowsPerPage. rewrite drop_ge; [done | lia].
  - unfold pageNumbers, Array.from_length. rewrite List.map_map.
    rewrite (List.map_ext _ (fun i => take 10 (drop (i * 10) rows))).
    + rewrite concat_chunks. apply take_ge. lia.
    + intros i. rewrite paginatedRows_take_drop by lia.
      unfold rowsPerPage. do 2 f_equal. lia.
Qed.

(** The theorem at a table of 25 rows: three pages, the third of 5 rows,
    the fourth empty. *)
Lemma pagination_partitions_witness :
  let rows : list Row := List.map (fun i => [CNumber (Number.of_Z (Z.of_nat i))]) (seq 0 25) in
  totalPages rows = 3
  /\ paginatedRows rows 3 = drop 20 rows
  /\ paginatedRows rows 4 = []
  /\ concat (List.map (paginatedRows rows) (pageNumbers (totalPages rows)))
     = rows.
Proof.
  intros rows.
  destruct (pagination_partitions rows) as (Hceil & Hslice & Hbeyond & Hall).
  assert (Htotal : totalPages rows = 3) by (unfold rowsPerPage in Hceil; simpl in Hceil; lia).
  split_and!; [done | | | done].
  - rewrite (Hslice 3) by lia. reflexivity.
  - apply Hbeyond. lia.
Defined.

Lemma pageRange_length (first last : Z) :
  length (pageRange first last) = Z.to_nat (last - first + 1).
Proof.
  unfold pageRange, Array.from_length. by rewrite length_map, length_seq.
Qed.

Lemma elem_of_pageRange (first last page : Z) :
  page ∈ pageRange first last <-> first <= page <= last.
Proof.
  unfold pageRange, Array.from_length.
  rewrite list_elem_of_In, in_map_iff. split.
  - intros (i & <- & Hi%in_seq). lia.
  - intros Hpage. exists (Z.to_nat (page - first)).
    split; [lia|]. apply in_seq. lia.
Qed.

(** C7: for a current page of at least 1 and a page count of at least 0,
    the visible page numbers are the consecutive pages [first .. stop],
    where [start = max(1, page - 2)], [stop = min(totalPages, start + 4)]
    and [first] is [start] slid back to [max(1, stop - 4)] when the window
    from [start] would be shorter than 5; they are at most 5 (exactly 5
    when there are 5 pages or more, all pages otherwise) and all lie in
    [1 .. totalPages]. *)
Theorem visible_pages_window (currentPage totalPages : Z) :
  1 <= currentPage -> 0 <= totalPages ->
  let start := Z.max 1 (currentPage - 2) in
  let stop := Z.min totalPages (start + 4) in
  let first := if stop - start <? 4 then Z.max 1 (stop - 4) else start in
  visiblePages currentPage totalPages = pageRange first stop
  /\ 1 <= first <= start
  /\ (length (visiblePages currentPage totalPages) <= 5)%nat
  /\ Z.of_nat (length (visiblePages currentPage totalPages))
     = Z.min 5 totalPages
  /\ (forall page, page ∈ visiblePages currentPage totalPages ->
        1 <= page <= totalPages).
Proof.
  intros Hpage Htotal start stop first.
  assert (Hwindow : visiblePages currentPage totalPages = pageRange first stop).
  { unfold visiblePages, pageRange, first, stop, start.
    replace (Z.max 1 (currentPage - 2) + 5 - 1)
      with (Z.max 1 (currentPage - 2) + 4) by lia.
    replace (5 - 1) with 4 by lia.
    by replace (Z.min totalPages (Z.max 1 (currentPage - 2) + 4) - 5 + 1)
      with (Z.min totalPages (Z.max 1 (currentPage - 2) + 4) - 4) by lia. }
  rewrite Hwindow, pageRange_length.
  assert (Hfirst : 1 <= first <= start /\ stop <= totalPages
                   /\ stop - first + 1 = Z.min 5 totalPages).
  { unfold first, stop, start.
    destruct (Z.ltb_spec (Z.min totalPages (Z.max 1 (currentPage - 2) + 4)
                          - Z.max 1 (currentPage - 2)) 4); lia. }
  split_and!; [done | lia | lia | lia | lia |].
  intros page Hin%elem_of_pageRange. lia.
Qed.

(** The theorem at page 10 of 3 (a stale page after the rows shrank) and
    at page 5 of 20. *)
Lemma visible_pages_window_witness :
  visiblePages 10 3 = [1; 2; 3] /\ visiblePages 5 20 = [3; 4; 5; 6; 7].
Proof.
  split.
  - destruct (visible_pages_window 10 3) as [Hwindow _]; [lia | lia |].
    exact Hwindow.
  - destruct (visible_pages_window 5 20) as [Hwindow _]; [lia | lia |].
    exact Hwindow.
Defined.

(** ** Chart projection *)

Lemma columns_includes_spec (columns : list string) (v : Json) :
  columns_includes columns v = true
  <-> exists s, v = JString s /\ s ∈ columns.
Proof.
  destruct v as [|b|x|s|items|fields]; simpl;
    try (split; [done | by intros (? & ? & ?)]).
  unfold Array.includes. rewrite existsb_exists. split.
  - intros (y & Hy & Heq%String.eqb_eq). subst y. exists s.
    by rewrite list_elem_of_In.
  - intros (y & Heq & Hy). injection Heq as ->. exists y.
    split; [by apply list_elem_of_In | apply String.eqb_refl].
Qed.

(** C9: a selected x column (y column) that is not in the header gives
    the empty list of labels (the empty dataset), and the chart type has
    no effect on the labels and the dataset. *)
Theorem chart_projection_absent_column `{Host} (st : State) :
  ((forall s, xColumn st = JString s -> s ∉ columns st) ->
   labels (chartData st) = [])
  /\ ((forall s, yColumn st = JString s -> s ∉ columns st) ->
      dataset_data (chartData st) = [])
  /\ (forall chartType' : Json,
        chartData (setChartType chartType' st) = chartData st).
Proof.
  assert (Habsent : forall v,
            (forall s, v = JString s -> s ∉ columns st) ->
            columns_includes (columns st) v = false).
  { intros v Hv. apply not_true_is_false.
    intros (s & -> & Hs)%columns_includes_spec. by apply (Hv s). }
  split_and!.
  - intros Hx. simpl. by rewrite (Habsent _ Hx), andb_false_r.
  - intros Hy. simpl. by rewrite (Habsent _ Hy), andb_false_r.
  - done.
Qed.

Lemma chart_projection_absent_column_witness :
  labels (chartData (H := refHost)
            (setXColumn (JString "Profit") exampleState)) = []
  /\ chartData (H := refHost) (setChartType (JString "pie") exampleState)
     = chartData (H := refHost) exampleState.
Proof.
  destruct (chart_projection_absent_column (H := refHost)
              (setXColumn (JString "Profit") exampleState)) as (Hlabels & _).
  destruct (chart_projection_absent_column (H := refHost) exampleState)
    as (_ & _ & Htype).
  split; [|apply Htype].
  apply Hlabels. intros s [= <-] Hin.
  repeat (apply elem_of_cons in Hin as [[=] | Hin]).
  by apply elem_of_nil in Hin.
Defined.

(** ** The instruction resolver *)

(** The selection is read when the three fields are there and truthy. *)
Lemma readSelection_accepts (result : Json) (c x y : Json) :
  JSON.get result "chartType" = Normal (Some c) ->
  JSON.get result "xColumn" = Normal (Some x) ->
  JSON.get result "yColumn" = Normal (Some y) ->
  JSON.truthy c = true -> JSON.truthy x = true -> JSON.truthy y = true ->
  readSelection result = Normal (Some (c, x, y)).
Proof.
  intros Hc Hx Hy Htc Htx Hty. unfold readSelection.
  rewrite Hc, Hx, Hy. simpl. by rewrite Htc, Htx, Hty.
Qed.

Lemma readSelection_accepted (result : Json) (c x y : Json) :
  readSelection result = Normal (Some (c, x, y)) ->
  JSON.get result "chartType" = Normal (Some c)
  /\ JSON.get result "xColumn" = Normal (Some x)
  /\ JSON.get result "yColumn" = Normal (Some y)
  /\ JSON.truthy c = true /\ JSON.truthy x = true /\ JSON.truthy y = true.
Proof.
  unfold readSelection.
  destruct (JSON.get result "chartType") as [[c'|]|]; simpl; [|done..].
  destruct (JSON.truthy c') eqn:Htc; simpl; [|done].
  destruct (JSON.get result "xColumn") as [[x'|]|]; simpl; [|done..].
  destruct (JSON.truthy x') eqn:Htx; simpl; [|done].
  destruct (JSON.get result "yColumn") as [[y'|]|]; simpl; [|done..].
  destruct (JSON.truthy y') eqn:Hty; simpl; [|done].
  by intros [= <- <- <-].
Qed.

(** A field that is missing or falsy makes the selection unreadable. *)
Lemma readSelection_rejects (result : Json) (key : string) (v : option Json) :
  key ∈ selectionKeys ->
  JSON.get result key = Normal v ->
  JSON.truthy_opt v = false ->
  readSelection result = Normal None.
Proof.
  intros Hkey Hget Hfalsy.
  assert (Hnormal : forall k, exists w, JSON.get result k = Normal w).
  { intros k. destruct result; simpl in *; try done; by eexists. }
  destruct (Hnormal "chartType") as [c Hc].
  destruct (Hnormal "xColumn") as [x Hx].
  destruct (Hnormal "yColumn") as [y Hy].
  unfold readSelection. rewrite Hc, Hx, Hy. simpl.
  unfold selectionKeys in Hkey.
  repeat (apply elem_of_cons in Hkey as [-> | Hkey]);
    [| | | by apply elem_of_nil in Hkey];
    rewrite Hget in *; simplify_eq;
    rewrite ?Hfalsy; simpl;
    repeat (match goal with
            | |- context [JSON.truthy_opt ?w] =>
                destruct (JSON.truthy_opt w) eqn:?; simpl
            end); try done;
    by destruct c, x, y.
Qed.

(** What a run of [interpretInstruction] can do: apply a selection read
    from an [ok] response, or alert and leave the selection as it was. *)
Lemma interpretInstruction_cases (fetched : Completion Response) (st st' : State)
    (outcome : Outcome) :
  interpretInstruction fetched st = (st', outcome) ->
  (outcome = Applied
   /\ exists res result c x y,
        fetched = Normal res /\ ok res = true /\ body res = Some result
        /\ readSelection result = Normal (Some (c, x, y))
        /\ selection st' = (c, x, y))
  \/ (exists a, outcome = Alerted a /\ selection st' = selection st).
Proof.
  unfold interpretInstruction.
  destruct (negb (JSString.truthy (instruction st)) || _).
  { intros [= <- <-]. right. by eexists. }
  destruct fetched as [res|message]; simpl.
  2: { intros [= <- <-]. right. by eexists. }
  destruct (ok res) eqn:Hok; simpl.
  2: { intros [= <- <-]. right. by eexists. }
  unfold Response_json. destruct (body res) as [result|] eqn:Hbody; simpl.
  2: { intros [= <- <-]. right. by eexists. }
  destruct (readSelection result) as [[[[c x] y]|]|message] eqn:Hread; simpl.
  - intros [= <- <-]. left. split; [done|]. by exists res, result, c, x, y.
  - intros [= <- <-]. right. by eexists.
  - intros [= <- <-]. right. by eexists.
Qed.

Lemma chartComponent_unknown (c : Json) :
  c ∉ [JString "line"; JString "pie"; JString "donut"] ->
  chartComponent c = Bar.
Proof.
  intros Hc. destruct c as [|b|x|s|items|fields]; try done. simpl.
  destruct (String.eqb_spec s "line") as [->|_]; [set_solver|].
  destruct (String.eqb_spec s "pie") as [->|_]; [set_solver|].
  destruct (String.eqb_spec s "donut") as [->|_]; [set_solver|done].
Qed.

(** C2, as the code has it: a response of the resolver is accepted when
    its [chartType], [xColumn] and [yColumn] are all there and truthy, and
    the three values are then applied as they are: the chart type is not
    checked against the four known values, and one outside them is drawn
    as a bar chart.  A response that lacks one of the three fields is an
    error that changes no field of the selection, and so is every other
    run that ends in an alert. *)
Theorem resolver_accepts_complete_selection (st : State) (res : Response)
    (result : Json) :
  JSString.truthy (instruction st) = true ->
  columns st <> [] ->
  ok res = true ->
  body res = Some result ->
  (forall c x y,
      JSON.get result "chartType" = Normal (Some c) ->
      JSON.get result "xColumn" = Normal (Some x) ->
      JSON.get result "yColumn" = Normal (Some y) ->
      JSON.truthy c = true -> JSON.truthy x = true -> JSON.truthy y = true ->
      exists st', interpretInstruction (Normal res) st = (st', Applied)
                  /\ selection st' = (c, x, y))
  /\ (forall key,
        key ∈ selectionKeys -> JSON.get result key = Normal None ->
        exists st',
          interpretInstruction (Normal res) st
          = (st', Alerted (NotUnderstood result))
          /\ selection st' = selection st)
  /\ (forall fetched st' a,
        interpretInstruction fetched st = (st', Alerted a) ->
        selection st' = selection st)
  /\ (forall c, c ∉ [JString "line"; JString "pie"; JString "donut"] ->
                chartComponent c = Bar).
Proof.
  intros Hinstruction Hcolumns Hok Hbody.
  assert (Hguard : negb (JSString.truthy (instruction st))
                   || (length (columns st) =? 0)%nat = false).
  { rewrite Hinstruction. simpl. by destruct (columns st). }
  split_and!.
  - intros c x y Hc Hx Hy Htc Htx Hty.
    unfold interpretInstruction. rewrite Hguard. simpl. rewrite Hok. simpl.
    unfold Response_json. rewrite Hbody. simpl.
    rewrite (readSelection_accepts result c x y) by done. simpl.
    by eexists.
  - intros key Hkey Hmissing.
    unfold interpretInstruction. rewrite Hguard. simpl. rewrite Hok. simpl.
    unfold Response_json. rewrite Hbody. simpl.
    rewrite (readSelection_rejects result key None) by done. simpl.
    by eexists.
  - intros fetched st' a Hrun.
    destruct (interpretInstruction_cases _ _ _ _ Hrun)
      as [[? _] | (a' & _ & Hsame)]; done.
  - apply chartComponent_unknown.
Qed.

Lemma resolver_accepts_complete_selection_witness :
  (exists st',
     interpretInstruction (Normal (okResponse scatterSelection))
       stateWithInstruction = (st', Applied)
     /\ selection st'
        = (JString "scatter", JString "Date", JString "Revenue"))
  /\ (exists st',
        interpretInstruction (Normal (okResponse selectionWithoutY))
          stateWithInstruction
        = (st', Alerted (NotUnderstood selectionWithoutY))
        /\ selection st' = selection stateWithInstruction)
  /\ chartComponent (JString "scatter") = Bar.
Proof.
  destruct (resolver_accepts_complete_selection stateWithInstruction
              (okResponse scatterSelection) scatterSelection)
    as (Haccept & _ & _ & Hbar);
    [reflexivity | discriminate | reflexivity | reflexivity |].
  destruct (resolver_accepts_complete_selection stateWithInstruction
              (okResponse selectionWithoutY) selectionWithoutY)
    as (_ & Hmissing & _ & _);
    [reflexivity | discriminate | reflexivity | reflexivity |].
  split_and!.
  - apply Haccept; reflexivity.
  - apply (Hmissing "yColumn"); [|reflexivity].
    unfold selectionKeys. do 2 right. left.
  - apply Hbar. intros Hin.
    repeat (apply elem_of_cons in Hin as [[=] | Hin]).
    by apply elem_of_nil in Hin.
Defined.

(** C2 as stated fails: the service answers with the chart type
    ["scatter"]; the route forwards it, the client accepts it, and the
    state then holds a chart type that is none of the four known ones. *)
Lemma resolver_validation_counterexample :
  exists st',
    resolve (Some "key") (ServiceAnswer true "" (Some scatterSelection))
      stateWithInstruction = (st', Applied)
    /\ chartType st' = JString "scatter"
    /\ chartType st'
       ∉ [JString "bar"; JString "line"; JString "pie"; JString "donut"].
Proof.
  eexists. split_and!; [reflexivity | reflexivity |].
  simpl. intros Hin.
  repeat (apply elem_of_cons in Hin as [[=] | Hin]).
  by apply elem_of_nil in Hin.
Qed.

(** C10: the client accepts a response only if [chartType], [xColumn]
    and [yColumn] are all truthy; a response in which one of them is the
    empty string ends in an alert, with the chart type and both columns
    of the state as they were. *)
Theorem resolver_rejects_empty_fields (st st' : State)
    (fetched : Completion Response) (outcome : Outcome) :
  interpretInstruction fetched st = (st', outcome) ->
  (outcome = Applied ->
   exists res result c x y,
     fetched = Normal res /\ body res = Some result
     /\ JSON.get result "chartType" = Normal (Some c)
     /\ JSON.get result "xColumn" = Normal (Some x)
     /\ JSON.get result "yColumn" = Normal (Some y)
     /\ JSON.truthy c = true /\ JSON.truthy x = true /\ JSON.truthy y = true
     /\ selection st' = (c, x, y))
  /\ (forall res result key,
        fetched = Normal res -> body res = Some result ->
        key ∈ selectionKeys ->
        JSON.get result key = Normal (Some (JString "")) ->
        (exists a, outcome = Alerted a)
        /\ chartType st' = chartType st
        /\ xColumn st' = xColumn st
        /\ yColumn st' = yColumn st).
Proof.
  intros Hrun.
  destruct (interpretInstruction_cases _ _ _ _ Hrun)
    as [[-> (res & result & c & x & y & -> & Hok & Hbody & Hread & Hsel)]
       | (a & -> & Hsame)].
  - split.
    + intros _. exists res, result, c, x, y.
      destruct (readSelection_accepted _ _ _ _ Hread)
        as (? & ? & ? & ? & ? & ?). by split_and!.
    + intros res' result' key [= <-] Hbody' Hkey Hempty.
      rewrite Hbody in Hbody'. injection Hbody' as <-.
      by rewrite (readSelection_rejects result key _ Hkey Hempty) in Hread.
  - split; [done|].
    intros res result key _ _ _ _. split; [by exists a|].
    unfold selection in Hsame. by injection Hsame.
Qed.

Lemma resolver_rejects_empty_fields_witness :
  runOnEmptyChartType.2 = Alerted (NotUnderstood emptyChartTypeSelection)
  /\ (exists a, runOnEmptyChartType.2 = Alerted a)
  /\ chartType runOnEmptyChartType.1 = chartType stateWithInstruction
  /\ xColumn runOnEmptyChartType.1 = xColumn stateWithInstruction
  /\ yColumn runOnEmptyChartType.1 = yColumn stateWithInstruction.
Proof.
  split; [reflexivity|].
  destruct (resolver_rejects_empty_fields stateWithInstruction
              runOnEmptyChartType.1
              (Normal (okResponse emptyChartTypeSelection))
              runOnEmptyChartType.2 eq_refl) as [_ Hreject].
  apply (Hreject (okResponse emptyChartTypeSelection)
           emptyChartTypeSelection "chartType");
    [reflexivity | reflexivity | left | reflexivity].
Defined.

(** * Further properties of the code *)

(** ** The view: how the stages of [filteredData] compose *)

Lemma filteredData_stages `{Host} (st : State) :
  filteredData st
  = sortRows st (columnSelection st (dateFilter st (textFilter st
      (drop 1 (data st))))).
Proof.
  unfold filteredData. simpl. change 1 with (Z.of_nat 1).
  by rewrite slice_from_drop.
Qed.

Lemma sortRows_Permutation `{Host} (st : State) (rows : list Row) :
  sortRows st rows ≡ₚ rows.
Proof.
  unfold sortRows. destruct (sortColumn st); [apply sort_Permutation|done].
Qed.

Lemma columnSelection_length `{Host} (st : State) (rows : list Row) :
  length (columnSelection st rows) = length rows.
Proof.
  unfold columnSelection. destruct (_ && _); [|done]. apply length_map.
Qed.

Lemma dateFilter_sublist `{Host} (st : State) (rows : list Row) :
  dateFilter st rows `sublist_of` rows.
Proof.
  unfold dateFilter. destruct (_ || _); [|done]. simpl.
  destruct (negb _); [apply filter_sublist|done].
Qed.

Lemma textFilter_sublist `{Host} (st : State) (rows : list Row) :
  textFilter st rows `sublist_of` rows.
Proof.
  unfold textFilter. destruct (JSString.truthy _); [apply filter_sublist|done].
Qed.

Lemma filteredData_length `{Host} (st : State) :
  length (filteredData st)
  = length (dateFilter st (textFilter st (drop 1 (data st)))).
Proof.
  rewrite filteredData_stages, sortRows_Permutation.
  apply columnSelection_length.
Qed.

Lemma filteredData_length_le `{Host} (st : State) :
  (length (filteredData st) <= length (data st) - 1)%nat.
Proof.
  rewrite filteredData_length, <- length_drop.
  etrans; [apply sublist_length, dateFilter_sublist|].
  apply sublist_length, textFilter_sublist.
Qed.

(** X1: sorting and column selection never change how many rows the view
    has: two states with the same table, filter text and date range have
    views of the same length, hence the same number of pages, whatever
    their sort and their selected columns; and the view never has more
    rows than the table has data rows. *)
Theorem view_length_ignores_sort_and_columns `{Host} (st st' : State) :
  data st' = data st -> columns st' = columns st ->
  filterText st' = filterText st -> dateRange st' = dateRange st ->
  length (filteredData st') = length (filteredData st)
  /\ totalPages (filteredData st') = totalPages (filteredData st)
  /\ (length (filteredData st) <= length (data st) - 1)%nat.
Proof.
  intros Hdata Hcolumns Htext Hrange.
  assert (Hsame : length (filteredData st') = length (filteredData st)).
  { rewrite !filteredData_length. unfold dateFilter, textFilter.
    by rewrite Hdata, Hcolumns, Htext, Hrange. }
  split_and!; [done | unfold totalPages; by rewrite Hsame |].
  apply filteredData_length_le.
Qed.

Lemma view_length_ignores_sort_and_columns_witness :
  length (filteredData (H := refHost) (handleSort 1 exampleState))
  = length (filteredData (H := refHost) exampleState)
  /\ totalPages (filteredData (H := refHost) (handleSort 1 exampleState))
     = totalPages (filteredData (H := refHost) exampleState)
  /\ (length (filteredData (H := refHost) exampleState)
      <= length (data exampleState) - 1)%nat.
Proof.
  apply (view_length_ignores_sort_and_columns (H := refHost)
           exampleState (handleSort 1 exampleState)); reflexivity.
Defined.

(** X2: with the controls untouched (no filter text, no date bound, no
    sort column, and no column or every column selected) the view is the
    data rows of the table, in file order. *)
Theorem untouched_view_is_the_table `{Host} (st : State) :
  filterText st = "" ->
  start (dateRange st) = "" -> stop (dateRange st) = "" ->
  sortColumn st = None ->
  selectedColumns st = []
  \/ (length (columns st) <= length (selectedColumns st))%nat ->
  filteredData st = drop 1 (data st).
Proof.
  intros Htext Hstart Hstop Hsort Hselected.
  rewrite filteredData_stages.
  unfold sortRows, columnSelection, dateFilter, textFilter.
  rewrite Hsort, Htext, Hstart, Hstop. simpl.
  destruct Hselected as [-> | Hall]; [done|].
  destruct (Nat.ltb_spec (length (selectedColumns st)) (length (columns st)));
    [lia|]. by rewrite andb_false_r.
Qed.

Lemma untouched_view_is_the_table_witness :
  filteredData (H := refHost) exampleState = drop 1 exampleTable.
Proof.
  apply (untouched_view_is_the_table (H := refHost) exampleState);
    [reflexivity.. | right; simpl; lia].
Defined.

Lemma indexOf_absent (xs : list string) (x : string) :
  x ∉ xs -> Array.indexOf xs x = -1.
Proof.
  induction xs as [|y ys IH]; intros Hx; [done|]. simpl.
  destruct (String.eqb_spec y x) as [->|_]; [by destruct Hx; left|].
  rewrite IH; [done|]. intros Hin. apply Hx. by right.
Qed.

Lemma indexOf_present (xs : list string) (x : string) :
  x ∈ xs ->
  exists i : nat,
    Array.indexOf xs x = Z.of_nat i /\ xs !! i = Some x
    /\ forall j, (j < i)%nat -> xs !! j <> Some x.
Proof.
  induction xs as [|y ys IH]; intros Hx; [by apply elem_of_nil in Hx|].
  simpl. destruct (String.eqb_spec y x) as [->|Hne].
  - exists 0%nat. split_and!; [done..|]. intros j Hj. lia.
  - apply elem_of_cons in Hx as [->|Hx]; [done|].
    destruct (IH Hx) as (i & Hi & Hlookup & Hfirst).
    exists (S i). rewrite Hi.
    destruct (Z.ltb_spec (Z.of_nat i) 0); [lia|].
    split_and!; [lia | done |].
    intros [|j] Hj; simpl; [congruence|]. apply Hfirst. lia.
Qed.

(** X3: when some but not all columns are selected, every row of the view
    is a data row of the table projected on the selected column names, in
    the order of the selection: it has one cell per selected column (so
    as many cells as the displayed header has names, also for a short
    row), and the cell of a name that is not in the header is empty. *)
Theorem selected_columns_shape_the_rows `{Host} (st : State) (row : Row) :
  (0 < length (selectedColumns st) < length (columns st))%nat ->
  row ∈ filteredData st ->
  length row = length (displayedColumns st)
  /\ (exists source : Row,
        source ∈ drop 1 (data st)
        /\ row = List.map
                   (fun name => Row_get source (Array.indexOf (columns st) name))
                   (selectedColumns st))
  /\ (forall (source : Row) (name : string),
        name ∉ columns st ->
        Row_get source (Array.indexOf (columns st) name) = CEmpty).
Proof.
  intros [Hsome Hfewer] Hrow.
  rewrite filteredData_stages, sortRows_Permutation in Hrow.
  unfold columnSelection in Hrow.
  destruct (Nat.ltb_spec 0 (length (selectedColumns st))) as [_|?]; [|lia].
  destruct (Nat.ltb_spec (length (selectedColumns st)) (length (columns st)))
    as [_|?]; [|lia].
  simpl in Hrow. apply list_elem_of_In, in_map_iff in Hrow
    as (source & <- & Hsource%list_elem_of_In).
  rewrite List.map_map.
  assert (Hdisplayed : displayedColumns st = selectedColumns st).
  { unfold displayedColumns.
    by destruct (Nat.ltb_spec 0 (length (selectedColumns st))); [|lia]. }
  split_and!.
  - by rewrite Hdisplayed, length_map.
  - exists source. split; [|done].
    eapply elem_of_sublist; [|apply textFilter_sublist].
    eapply elem_of_sublist; [|apply dateFilter_sublist]. done.
  - intros source' name Habsent. by rewrite indexOf_absent.
Qed.

Lemma selected_columns_shape_the_rows_witness :
  length [CText "100"] = length (displayedColumns revenueOnly)
  /\ (exists source : Row,
        source ∈ drop 1 (data revenueOnly)
        /\ [CText "100"]
           = List.map
               (fun name =>
                  Row_get source (Array.indexOf (columns revenueOnly) name))
               (selectedColumns revenueOnly))
  /\ (forall (source : Row) (name : string),
        name ∉ columns revenueOnly ->
        Row_get source (Array.indexOf (columns revenueOnly) name) = CEmpty).
Proof.
  apply (selected_columns_shape_the_rows (H := refHost) revenueOnly).
  - simpl. lia.
  - assert (filteredData (H := refHost) revenueOnly
            = [[CText "100"]; [CText "200"]]) as ->
      by (vm_compute; reflexivity).
    left.
Defined.

(** ** The date-range stage on dates that parse *)

Lemma truthy_nonempty (s : string) : JSString.truthy s = true <-> s <> "".
Proof. by destruct s. Qed.

Lemma dateInRange_valid `{Host} (range : DateRange) (index : Z) (row : Row)
    (value : Z) :
  Date_new (Row_get row index) = Some value ->
  dateInRange range index row
  = (if JSString.truthy (start range)
     then Date_ge (Some value) (Date_parse (start range)) else true)
    && (if JSString.truthy (stop range)
        then Date_le (Some value) (Date_parse (stop range)) else true).
Proof.
  intros Hvalue. unfold dateInRange. rewrite Hvalue.
  destruct (JSString.truthy (start range)), (JSString.truthy (stop range));
    simpl; by rewrite ?andb_true_r.
Qed.

Lemma lower_bound_spec (bound : string) (parsed : option Z) (value : Z) :
  (if JSString.truthy bound then Date_ge (Some value) parsed else true) = true
  <-> (bound <> "" -> exists first, parsed = Some first /\ first <= value).
Proof.
  destruct (JSString.truthy bound) eqn:Hbound.
  - apply truthy_nonempty in Hbound. destruct parsed as [first|]; simpl.
    + rewrite Z.leb_le. split; [intros ? _; by exists first|].
      intros Hlo. by destruct (Hlo Hbound) as (? & [= <-] & ?).
    + split; [done|]. intros Hlo. by destruct (Hlo Hbound) as (? & ? & _).
  - apply truthy_empty in Hbound. by split.
Qed.

Lemma upper_bound_spec (bound : string) (parsed : option Z) (value : Z) :
  (if JSString.truthy bound then Date_le (Some value) parsed else true) = true
  <-> (bound <> "" -> exists last, parsed = Some last /\ value <= last).
Proof.
  destruct (JSString.truthy bound) eqn:Hbound.
  - apply truthy_nonempty in Hbound. destruct parsed as [last|]; simpl.
    + rewrite Z.leb_le. split; [intros ? _; by exists last|].
      intros Hhi. by destruct (Hhi Hbound) as (? & [= <-] & ?).
    + split; [done|]. intros Hhi. by destruct (Hhi Hbound) as (? & ? & _).
  - apply truthy_empty in Hbound. by split.
Qed.

(** What [findIndex] returns: [-1], or the first index whose element
    passes the test. *)
Lemma findIndex_found {A} (p : A -> bool) (xs : list A) :
  (Array.findIndex p xs = -1 /\ forall x, x ∈ xs -> p x = false)
  \/ exists (n : nat) (x : A),
       Array.findIndex p xs = Z.of_nat n /\ xs !! n = Some x /\ p x = true
       /\ forall j y, (j < n)%nat -> xs !! j = Some y -> p y = false.
Proof.
  induction xs as [|y ys IH]; simpl.
  - left. split; [done|]. by intros x ?%elem_of_nil.
  - destruct (p y) eqn:Hy.
    + right. exists 0%nat, y. split_and!; [done..|]. intros j z Hj. lia.
    + destruct IH as [[-> Hnone] | (n & x & -> & Hx & Hpx & Hfirst)].
      * left. split; [done|].
        intros x [->|Hx]%elem_of_cons; [done | by apply Hnone].
      * right. exists (S n), x.
        destruct (Z.ltb_spec (Z.of_nat n) 0); [lia|].
        split_and!; [lia | done | done |].
        intros [|j] z Hj Hz; simpl in Hz; [congruence|].
        apply (Hfirst j); [lia | done].
Qed.

(** X4: with a bound set, when the search for the date column
    ([columns.findIndex]) returns a column [index], that column is the
    first whose lower-cased name contains "date" or "time", and a row
    passes the date-range stage if and only if its cell at [index] is a
    valid date that is not before the start (when a start is set) and not
    after the end (when an end is set); a bound that is set and does not
    parse lets no row pass, and neither does a start that is after the
    end. *)
Theorem date_range_keeps_rows_in_range `{Host} (st : State) (rows : list Row)
    (index : Z) :
  Array.findIndex isDateColumn (columns st) = index -> index <> -1 ->
  start (dateRange st) <> "" \/ stop (dateRange st) <> "" ->
  (exists (n : nat) (name : string),
      index = Z.of_nat n /\ columns st !! n = Some name
      /\ isDateColumn name = true
      /\ forall j other, (j < n)%nat -> columns st !! j = Some other ->
                         isDateColumn other = false)
  /\ (forall row : Row,
        row ∈ dateFilter st rows
        <-> row ∈ rows
            /\ exists value : Z,
                 Date_new (Row_get row index) = Some value
                 /\ (start (dateRange st) <> "" ->
                     exists first,
                       Date_parse (start (dateRange st)) = Some first
                       /\ first <= value)
                 /\ (stop (dateRange st) <> "" ->
                     exists last,
                       Date_parse (stop (dateRange st)) = Some last
                       /\ value <= last))
  /\ (forall first last,
        start (dateRange st) <> "" -> stop (dateRange st) <> "" ->
        Date_parse (start (dateRange st)) = Some first ->
        Date_parse (stop (dateRange st)) = Some last ->
        last < first -> dateFilter st rows = []).
Proof.
  intros Hindex Hfound Hbound.
  assert (Hkept : forall row : Row,
      row ∈ dateFilter st rows
      <-> row ∈ rows
          /\ exists value : Z,
               Date_new (Row_get row index) = Some value
               /\ (start (dateRange st) <> "" ->
                   exists first, Date_parse (start (dateRange st)) = Some first
                                 /\ first <= value)
               /\ (stop (dateRange st) <> "" ->
                   exists last, Date_parse (stop (dateRange st)) = Some last
                                /\ value <= last)).
  { assert (Hset : JSString.truthy (start (dateRange st))
                   || JSString.truthy (stop (dateRange st)) = true).
    { apply orb_true_iff. by rewrite !truthy_nonempty. }
    intros row. unfold dateFilter. rewrite Hindex, Hset.
    destruct (Z.eqb_spec index (-1)) as [?|_]; [done|]. simpl.
    rewrite !list_elem_of_In, filter_In. apply and_iff_compat_l.
    destruct (Date_new (Row_get row index)) as [value|] eqn:Hvalue.
    - rewrite (dateInRange_valid _ _ _ value Hvalue), andb_true_iff,
        lower_bound_spec, upper_bound_spec.
      split; [intros [? ?]; by exists value|].
      by intros (v & [= <-] & ? & ?).
    - rewrite (dateInRange_invalid _ _ _ Hvalue Hset).
      split; [done | by intros (? & ? & _)]. }
  split_and!; [| done |].
  - destruct (findIndex_found isDateColumn (columns st))
      as [[Hnone _] | (n & name & Hn & Hname & Hdate & Hfirst)];
      [congruence|].
    exists n, name. split_and!; [congruence | done..].
  - intros first last Hs He Hfirst' Hlast Hinverted.
    apply elem_of_nil_inv. intros row (_ & value & _ & Hlo & Hhi)%Hkept.
    destruct (Hlo Hs) as (? & ? & ?). destruct (Hhi He) as (? & ? & ?).
    simplify_eq. lia.
Qed.

Lemma date_range_keeps_rows_in_range_witness :
  [CText "2024-01-02"; CText "200"] ∈ drop 1 tableWithBadDate
  /\ exists value : Z,
       Date_new (H := refHost)
         (Row_get [CText "2024-01-02"; CText "200"] 0)
       = Some value
       /\ (start (dateRange stateWithBadDate) <> "" ->
           exists first,
             Date_parse (Host := refHost) (start (dateRange stateWithBadDate))
             = Some first
             /\ first <= value)
       /\ (stop (dateRange stateWithBadDate) <> "" ->
           exists last,
             Date_parse (Host := refHost) (stop (dateRange stateWithBadDate))
             = Some last
             /\ value <= last).
Proof.
  destruct (date_range_keeps_rows_in_range (H := refHost) stateWithBadDate
              (drop 1 tableWithBadDate) 0) as (_ & Hkept & _).
  - reflexivity.
  - discriminate.
  - left. discriminate.
  - apply Hkept.
    assert (dateFilter (H := refHost) stateWithBadDate
              (drop 1 tableWithBadDate)
            = [[CText "2024-01-02"; CText "200"]]) as ->
      by (vm_compute; reflexivity).
    left.
Defined.

(** X5: the date-range stage returns its input unchanged when neither
    bound is set, and when the search for the date column returns [-1],
    as it does only when no column name contains "date" or "time"; and
    what the stage returns is always a subsequence of its input. *)
Theorem date_range_without_bounds_or_column `{Host} (st : State)
    (rows : list Row) :
  (start (dateRange st) = "" -> stop (dateRange st) = "" ->
   dateFilter st rows = rows)
  /\ (Array.findIndex isDateColumn (columns st) = -1 ->
      dateFilter st rows = rows
      /\ forall name, name ∈ columns st -> isDateColumn name = false)
  /\ dateFilter st rows `sublist_of` rows.
Proof.
  split_and!.
  - intros Hs He. unfold dateFilter. by rewrite Hs, He.
  - intros Hnone. split.
    + unfold dateFilter. rewrite Hnone. by destruct (_ || _).
    + destruct (findIndex_found isDateColumn (columns st))
        as [[_ Hall] | (n & ? & Hn & _)]; [done | lia].
  - apply dateFilter_sublist.
Qed.

(** ** Refining the filter text *)

Lemma append_assoc (s t u : string) : (s +:+ t) +:+ u = s +:+ t +:+ u.
Proof. induction s as [|c s IH]; [done|]. by rewrite !append_cons, IH. Qed.

Lemma includes_trans (s t u : string) :
  JSString.includes s t = true -> JSString.includes t u = true ->
  JSString.includes s u = true.
Proof.
  rewrite !includes_spec.
  intros (b1 & a1 & ->) (b2 & a2 & ->).
  exists (b1 +:+ b2), (a2 +:+ a1). by rewrite !append_assoc.
Qed.

Lemma filter_sublist_impl {A} (p q : A -> bool) (xs : list A) :
  (forall x, p x = true -> q x = true) ->
  List.filter p xs `sublist_of` List.filter q xs.
Proof.
  intros Himpl. induction xs as [|x xs IH]; simpl; [done|].
  destruct (p x) eqn:Hp.
  - rewrite (Himpl x Hp). by constructor.
  - destruct (q x); [by constructor|done].
Qed.

Lemma filter_filter_same {A} (p : A -> bool) (xs : list A) :
  List.filter p (List.filter p xs) = List.filter p xs.
Proof.
  induction xs as [|x xs IH]; simpl; [done|].
  destruct (p x) eqn:Hp; simpl; [|done]. by rewrite Hp, IH.
Qed.

(** X6: a filter text whose lower-cased form contains the lower-cased
    form of another (as it does after more characters are typed) keeps a
    subsequence of the rows the other keeps; two texts with the same
    lower-cased form keep the same rows; and filtering the filtered rows
    again by the same text changes nothing. *)
Theorem longer_filter_text_keeps_fewer_rows `{Host} (st : State)
    (short long : string) (rows : list Row) :
  short <> "" -> long <> "" ->
  JSString.includes (toLowerCase long) (toLowerCase short) = true ->
  textFilter (setFilterText long st) rows
    `sublist_of` textFilter (setFilterText short st) rows
  /\ (toLowerCase long = toLowerCase short ->
      textFilter (setFilterText long st) rows
      = textFilter (setFilterText short st) rows)
  /\ textFilter (setFilterText long st)
       (textFilter (setFilterText long st) rows)
     = textFilter (setFilterText long st) rows.
Proof.
  intros Hshort%truthy_nonempty Hlong%truthy_nonempty Hincludes.
  unfold textFilter. simpl. rewrite Hshort, Hlong. split_and!.
  - apply filter_sublist_impl. intros row. unfold textMatches.
    rewrite !existsb_exists. intros (cell & Hcell & Hmatch).
    exists cell. split; [done|].
    destruct cell; [| | done]; by eapply includes_trans.
  - intros Hsame. unfold textMatches. by rewrite Hsame.
  - apply filter_filter_same.
Qed.

Lemma longer_filter_text_keeps_fewer_rows_witness :
  textFilter (H := refHost) (setFilterText "2024-01-02" exampleState)
    (drop 1 exampleTable)
  `sublist_of`
  textFilter (H := refHost) (setFilterText "2024" exampleState)
    (drop 1 exampleTable).
Proof.
  apply (longer_filter_text_keeps_fewer_rows (H := refHost) exampleState
           "2024" "2024-01-02" (drop 1 exampleTable));
    [discriminate | discriminate | vm_compute; reflexivity].
Defined.

(** ** The sort controls *)


(** ** A sort column that no row reaches *)

Lemma Sorted_all_inOrder {A} (comparefn : A -> A -> float) (xs : list A) :
  (forall a b, a ∈ xs -> b ∈ xs -> inOrder comparefn a b) ->
  Sorted (inOrder comparefn) xs.
Proof.
  induction xs as [|x xs IH]; intros Hall; [constructor|].
  constructor.
  - apply IH. intros a b Ha Hb. apply Hall; by right.
  - destruct xs as [|y ys]; constructor. apply Hall; [by left|by right; left].
Qed.

Lemma Row_get_beyond (row : Row) (column : nat) :
  (length row <= column)%nat -> Row_get row (Z.of_nat column) = CEmpty.
Proof.
  intros Hshort. unfold Row_get.
  destruct (Z.ltb_spec (Z.of_nat column) 0); [done|].
  rewrite Nat2Z.id.
  by assert (row !! column = None) as -> by by apply lookup_ge_None_2.
Qed.

(** X8: when the sort column lies beyond the end of every row (a sort
    column kept from a wider table, for one), all keys are [undefined],
    all rows compare equal, and sorting leaves the rows in their order,
    in both directions. *)
Theorem sort_column_beyond_the_rows `{Host} (st : State) (column : nat)
    (rows : list Row) :
  HostLaws H ->
  sortColumn st = Some column ->
  (forall row, row ∈ rows -> (length row <= column)%nat) ->
  sortRows st rows = rows.
Proof.
  intros Hlaws Hcolumn Hshort. unfold sortRows. rewrite Hcolumn.
  apply sort_of_Sorted, Sorted_all_inOrder.
  intros a b Ha Hb. unfold inOrder.
  rewrite compareRows_text by (left; by rewrite Row_get_beyond by auto).
  rewrite !Row_get_beyond by auto.
  assert (Hself : Number.positive (localeCompare "undefined" "undefined")
                  = false).
  { destruct (Number.positive (localeCompare "undefined" "undefined"))
      eqn:Hpos; [|done]. by rewrite (Hlaws _ _ Hpos) in Hpos. }
  by destruct (sortDirection st).
Qed.

Lemma sort_column_beyond_the_rows_witness :
  sortRows (H := refHost) (handleSort 7 exampleState) (drop 1 exampleTable)
  = drop 1 exampleTable.
Proof.
  apply (sort_column_beyond_the_rows (H := refHost)
           (handleSort 7 exampleState) 7 (drop 1 exampleTable)
           refHost_laws eq_refl).
  intros row Hrow. simpl in Hrow.
  repeat (apply elem_of_cons in Hrow as [-> | Hrow]; [simpl; lia|]).
  by apply elem_of_nil in Hrow.
Defined.

(** ** Pages and page buttons *)

Lemma paginatedRows_length (rows : list Row) (page : Z) :
  1 <= page ->
  Z.of_nat (length (paginatedRows rows page))
  = Z.max 0 (Z.min 10 (Z.of_nat (length rows) - 10 * (page - 1))).
Proof.
  intros Hpage. rewrite paginatedRows_take_drop by done.
  rewrite length_take, length_drop. unfold rowsPerPage. lia.
Qed.

Lemma totalPages_bounds (rows : list Row) :
  10 * (totalPages rows - 1) < Z.of_nat (length rows) <= 10 * totalPages rows.
Proof. rewrite totalPages_div. Z.div_mod_to_equations. lia. Qed.

(** X9: every page from 1 to [totalPages] holds at least one row and at
    most ten; every page before the last holds exactly ten, and the last
    holds the rest. *)
Theorem pages_are_full_but_the_last (rows : list Row) (page : Z) :
  1 <= page <= totalPages rows ->
  (1 <= length (paginatedRows rows page) <= 10)%nat
  /\ (page < totalPages rows -> length (paginatedRows rows page) = 10%nat)
  /\ (page = totalPages rows ->
      Z.of_nat (length (paginatedRows rows page))
      = Z.of_nat (length rows) - 10 * (totalPages rows - 1)).
Proof.
  intros Hpage. pose proof (totalPages_bounds rows) as Hbounds.
  pose proof (paginatedRows_length rows page) as Hlength.
  split_and!; [lia | lia | intros ? | intros ->]; lia.
Qed.

Lemma pages_are_full_but_the_last_witness :
  (1 <= length (paginatedRows (repeat [CEmpty] 25) 3) <= 10)%nat
  /\ (3 < totalPages (repeat [CEmpty] 25) ->
      length (paginatedRows (repeat [CEmpty] 25) 3) = 10%nat)
  /\ (3 = totalPages (repeat [CEmpty] 25) ->
      Z.of_nat (length (paginatedRows (repeat [CEmpty] 25) 3))
      = Z.of_nat (length (repeat [CEmpty] 25))
        - 10 * (totalPages (repeat [CEmpty] 25) - 1)).
Proof.
  apply (pages_are_full_but_the_last (repeat [CEmpty] 25) 3).
  vm_compute. split; discriminate.
Defined.

Lemma visiblePages_range (currentPage totalPages : Z) :
  visiblePages currentPage totalPages
  = pageRange
      (if Z.min totalPages (Z.max 1 (currentPage - 2) + 4)
          - Z.max 1 (currentPage - 2) <? 4
       then Z.max 1 (Z.min totalPages (Z.max 1 (currentPage - 2) + 4) - 4)
       else Z.max 1 (currentPage - 2))
      (Z.min totalPages (Z.max 1 (currentPage - 2) + 4)).
Proof.
  unfold visiblePages, pageRange.
  replace (Z.max 1 (currentPage - 2) + 5 - 1)
    with (Z.max 1 (currentPage - 2) + 4) by lia.
  replace (5 - 1) with 4 by lia.
  by replace (Z.min totalPages (Z.max 1 (currentPage - 2) + 4) - 5 + 1)
    with (Z.min totalPages (Z.max 1 (currentPage - 2) + 4) - 4) by lia.
Qed.

Lemma elem_of_visiblePages (currentPage totalPages page : Z) :
  1 <= currentPage -> 0 <= totalPages ->
  page ∈ visiblePages currentPage totalPages ->
  1 <= page <= totalPages.
Proof.
  intros Hcurrent Htotal. rewrite visiblePages_range, elem_of_pageRange.
  destruct (Z.ltb_spec (Z.min totalPages (Z.max 1 (currentPage - 2) + 4)
                        - Z.max 1 (currentPage - 2)) 4); lia.
Qed.

(** X10: a current page that is one of the pages [1 .. totalPages] is
    always among the visible page numbers, together with its neighbours
    within two pages when the window is not pushed against an end. *)
Theorem current_page_is_visible (currentPage totalPages : Z) :
  1 <= currentPage <= totalPages ->
  currentPage ∈ visiblePages currentPage totalPages
  /\ (3 <= currentPage -> currentPage + 2 <= totalPages ->
      visiblePages currentPage totalPages
      = pageRange (currentPage - 2) (currentPage + 2)).
Proof.
  intros Hcurrent. rewrite visiblePages_range. split.
  - apply elem_of_pageRange.
    destruct (Z.ltb_spec (Z.min totalPages (Z.max 1 (currentPage - 2) + 4)
                        - Z.max 1 (currentPage - 2)) 4); lia.
  - intros Hlow Hhigh.
    destruct (Z.ltb_spec (Z.min totalPages (Z.max 1 (currentPage - 2) + 4)
                          - Z.max 1 (currentPage - 2)) 4); [lia|].
    f_equal; lia.
Qed.

Lemma current_page_is_visible_witness :
  5 ∈ visiblePages 5 20
  /\ (3 <= 5 -> 5 + 2 <= 20 -> visiblePages 5 20 = pageRange (5 - 2) (5 + 2)).
Proof. apply (current_page_is_visible 5 20). lia. Defined.

Lemma totalPages_nonneg (rows : list Row) : 0 <= totalPages rows.
Proof. pose proof (totalPages_bounds rows). lia. Qed.

Lemma clickPages_invariant `{Host} (pages : list Z) (st st' : State) :
  1 <= currentPage st ->
  clickPages pages st = Some st' ->
  1 <= currentPage st' /\ filteredData st' = filteredData st
  /\ data st' = data st
  /\ (pages <> [] -> currentPage st' <= totalPages (filteredData st')).
Proof.
  revert st. induction pages as [|page pages IH]; intros st Hcurrent Hclicks.
  - injection Hclicks as <-. by split_and!.
  - simpl in Hclicks. unfold clickPage in Hclicks.
    destruct (decide (page ∈ pageButtons st)) as [Hbutton|]; [|done].
    simpl in Hclicks.
    assert (Hpage : 1 <= page <= totalPages (filteredData st)).
    { unfold pageButtons in Hbutton.
      destruct (0 <? length (data st))%nat; [|by apply elem_of_nil in Hbutton].
      apply (elem_of_visiblePages (currentPage st)); [done | | done].
      apply totalPages_nonneg. }
    destruct (IH (setCurrentPage page st)) as (Hone & Hview & Hdata & Hlast);
      [simpl; lia | done |].
    change (filteredData (setCurrentPage page st)) with (filteredData st)
      in Hview.
    split_and!; [done..|]. intros _.
    destruct pages as [|next pages].
    + rewrite Hview. injection Hclicks as <-.
      cbn [currentPage setCurrentPage]. lia.
    + by apply Hlast.
Qed.

(** X11: through any sequence of clicks on page buttons the current page
    stays at 1 or above and the view keeps its rows; after at least one
    click the current page is one of the pages [1 .. totalPages], and the
    table body shows between one and ten rows. *)
Theorem page_clicks_stay_in_range `{Host} (pages : list Z) (st st' : State) :
  1 <= currentPage st ->
  clickPages pages st = Some st' ->
  1 <= currentPage st'
  /\ filteredData st' = filteredData st
  /\ (pages <> [] ->
      currentPage st' <= totalPages (filteredData st')
      /\ (1 <= length (tableRows st') <= 10)%nat).
Proof.
  intros Hcurrent Hclicks.
  destruct (clickPages_invariant pages st st' Hcurrent Hclicks)
    as (Hone & Hview & _ & Hlast).
  split_and!; [done..|]. intros Hclicked. specialize (Hlast Hclicked).
  split; [done|]. unfold tableRows.
  pose proof (totalPages_bounds (filteredData st')) as Hbounds.
  pose proof (paginatedRows_length (filteredData st') (currentPage st') Hone).
  lia.
Qed.

Lemma page_clicks_stay_in_range_witness :
  1 <= currentPage (setCurrentPage 1 exampleState)
  /\ filteredData (H := refHost) (setCurrentPage 1 exampleState)
     = filteredData (H := refHost) exampleState.
Proof.
  destruct (page_clicks_stay_in_range (H := refHost) [1] exampleState
              (setCurrentPage 1 exampleState)) as (Hpage & Hview & _).
  - simpl. lia.
  - vm_compute. reflexivity.
  - by split.
Defined.

(** ** Chart data of columns that are in the header *)

Lemma includes_elem_of (xs : list string) (x : string) :
  Array.includes xs x = true <-> x ∈ xs.
Proof.
  unfold Array.includes. rewrite existsb_exists, list_elem_of_In. split.
  - by intros (y & Hy & ->%String.eqb_eq).
  - intros Hx. exists x. split; [done | apply String.eqb_refl].
Qed.

(** X12: when the selected x and y columns are non-empty names of the
    header, the chart has one label and one data point per data row of
    the table, in row order: the label is the row's cell in the first
    column named as the x column, the data point is the number its cell
    in the first column named as the y column coerces to. *)
Theorem chart_series_are_aligned `{Host} (st : State) (x y : string) :
  xColumn st = JString x -> yColumn st = JString y ->
  x <> "" -> y <> "" -> x ∈ columns st -> y ∈ columns st ->
  length (labels (chartData st)) = length (drop 1 (data st))
  /\ length (dataset_data (chartData st)) = length (drop 1 (data st))
  /\ exists ix iy : nat,
       columns st !! ix = Some x /\ columns st !! iy = Some y
       /\ (forall j, (j < ix)%nat -> columns st !! j <> Some x)
       /\ (forall j, (j < iy)%nat -> columns st !! j <> Some y)
       /\ forall (i : nat) (row : Row),
            drop 1 (data st) !! i = Some row ->
            labels (chartData st) !! i = Some (Row_get row (Z.of_nat ix))
            /\ dataset_data (chartData st) !! i
               = Some (ToNumber (Row_get row (Z.of_nat iy))).
Proof.
  intros Hx Hy Hxs%truthy_nonempty Hys%truthy_nonempty Hxin Hyin.
  destruct (indexOf_present _ _ Hxin) as (ix & Hix & Hxat & Hxfirst).
  destruct (indexOf_present _ _ Hyin) as (iy & Hiy & Hyat & Hyfirst).
  unfold chartData. simpl. rewrite Hx, Hy. simpl.
  rewrite Hxs, Hys, (proj2 (includes_elem_of _ _) Hxin),
    (proj2 (includes_elem_of _ _) Hyin), Hix, Hiy. simpl.
  change 1 with (Z.of_nat 1). rewrite slice_from_drop.
  split_and!; [apply length_map.. |].
  exists ix, iy. split_and!; [done..|].
  intros i row Hrow.
  change (@List.map) with (@fmap list _).
  by rewrite !list_lookup_fmap, Hrow.
Qed.

Lemma chart_series_are_aligned_witness :
  length (labels (chartData (H := refHost) revenueByDate)) = 2%nat
  /\ length (dataset_data (chartData (H := refHost) revenueByDate)) = 2%nat.
Proof.
  destruct (chart_series_are_aligned (H := refHost) revenueByDate
              "Date" "Revenue") as (Hlabels & Hpoints & _);
    [reflexivity | reflexivity | discriminate | discriminate
    | simpl; left | simpl; right; left |].
  by split.
Defined.

(** ** Metrics of a table without the metric's column *)

Lemma or_zero_nan (x : float) : is_nan x = true -> Number.or_zero x = 0%float.
Proof.
  intros Hnan. unfold Number.or_zero, Number.truthy.
  by rewrite Hnan, orb_true_r.
Qed.

Lemma sumColumn_missing `{Host} (parse : Cell -> float) (rows : list Row) :
  is_nan (parse CEmpty) = true -> sumColumn parse (-1) rows = 0%float.
Proof.
  intros Hnan. unfold sumColumn.
  induction rows as [|row rows IH]; [done|]. simpl.
  change (Row_get row (-1)) with CEmpty. by rewrite (or_zero_nan _ Hnan).
Qed.

Lemma metricsEffect_computes `{Host} (st : State) :
  (1 < length (data st))%nat -> columns st <> [] ->
  metrics (metricsEffect st)
  = computeMetrics (columns st) (drop 1 (data st)).
Proof.
  intros Hrows Hcolumns. unfold metricsEffect.
  destruct (Nat.ltb_spec 1 (length (data st))); [|lia].
  destruct (columns st) eqn:Heq; [done|]. simpl.
  change 1 with (Z.of_nat 1). by rewrite slice_from_drop.
Qed.

(** X13: for a host on which [parseFloat] and [parseInt] of the text
    "undefined" are NaN, and a table with data rows, a metric whose
    column is not in the header is zero: the revenue without a column
    "Revenue", the users without "Users", the conversions without
    "Conversions" (the names are matched exactly, case included). *)
Theorem metric_of_a_missing_column_is_zero `{Host} (st : State) :
  is_nan (parseFloat_string "undefined") = true ->
  is_nan (parseInt_string "undefined") = true ->
  (1 < length (data st))%nat -> columns st <> [] ->
  ("Revenue" ∉ columns st -> revenue (metrics (metricsEffect st)) = 0%float)
  /\ ("Users" ∉ columns st -> users (metrics (metricsEffect st)) = 0%float)
  /\ ("Conversions" ∉ columns st ->
      conversions (metrics (metricsEffect st)) = 0%float).
Proof.
  intros Hfloat Hint Hrows Hcolumns.
  rewrite (metricsEffect_computes st Hrows Hcolumns).
  unfold computeMetrics. simpl.
  split_and!; intros Habsent; rewrite (indexOf_absent _ _ Habsent);
    by apply sumColumn_missing.
Qed.

Lemma metric_of_a_missing_column_is_zero_witness :
  ("Revenue" ∉ columns exampleState ->
   revenue (metrics (metricsEffect (H := refHost) exampleState)) = 0%float)
  /\ ("Users" ∉ columns exampleState ->
      users (metrics (metricsEffect (H := refHost) exampleState)) = 0%float)
  /\ ("Conversions" ∉ columns exampleState ->
      conversions (metrics (metricsEffect (H := refHost) exampleState))
      = 0%float).
Proof.
  apply (metric_of_a_missing_column_is_zero (H := refHost) exampleState);
    [reflexivity | reflexivity | simpl; lia | discriminate].
Defined.

(** ** The resolver: what a run leaves alone, and the route behind it *)

(** X14: every run of [interpretInstruction], however the request ends,
    finishes with [isLoading] false and changes nothing of the state but
    the chart selection: the table, the metrics, the instruction, the
    filters, the sort, the page and the selected columns are as before,
    and so is the view. *)
Theorem resolver_run_leaves_the_table_alone `{Host}
    (fetched : Completion Response) (st : State) :
  isLoading (interpretInstruction fetched st).1 = false
  /\ data (interpretInstruction fetched st).1 = data st
  /\ columns (interpretInstruction fetched st).1 = columns st
  /\ metrics (interpretInstruction fetched st).1 = metrics st
  /\ instruction (interpretInstruction fetched st).1 = instruction st
  /\ filterText (interpretInstruction fetched st).1 = filterText st
  /\ dateRange (interpretInstruction fetched st).1 = dateRange st
  /\ sortColumn (interpretInstruction fetched st).1 = sortColumn st
  /\ sortDirection (interpretInstruction fetched st).1 = sortDirection st
  /\ currentPage (interpretInstruction fetched st).1 = currentPage st
  /\ selectedColumns (interpretInstruction fetched st).1 = selectedColumns st
  /\ filteredData (interpretInstruction fetched st).1 = filteredData st.
Proof.
  unfold interpretInstruction.
  destruct (negb (JSString.truthy (instruction st)) || _); [by split_and!|].
  destruct fetched as [res|message]; simpl; [|by split_and!].
  destruct (ok res); simpl; [|by split_and!].
  unfold Response_json. destruct (body res) as [result|]; simpl;
    [|by split_and!].
  destruct (readSelection result) as [[[[c x] y]|]|message]; simpl;
    by split_and!.
Qed.





(** ** The CSV export *)

Lemma includes_char_cons (c d : ascii) (s : string) :
  JSString.includes (String c s) (String d "") = false
  <-> c <> d /\ JSString.includes s (String d "") = false.
Proof.
  cbn [JSString.includes String.prefix].
  destruct (ascii_dec d c) as [<-|Hne].
  - destruct s; simpl; split; try done; by intros [? _].
  - simpl. split; [intros Hs; split; [congruence|done] | by intros [_ ?]].
Qed.

Lemma commaFree_cons (c : ascii) (s : string) :
  commaFree (String c s) <-> c <> ","%char /\ commaFree s.
Proof. apply includes_char_cons. Qed.

Lemma append_nil_l (s : string) : "" +:+ s = s.
Proof. reflexivity. Qed.

Lemma comma_append (s : string) : comma +:+ s = String "," s.
Proof. reflexivity. Qed.

Lemma field_unique (x y r1 r2 : string) :
  commaFree x -> commaFree y -> fieldEnd r1 -> fieldEnd r2 ->
  x +:+ r1 = y +:+ r2 -> x = y /\ r1 = r2.
Proof.
  revert y. induction x as [|c x IH]; intros y Hx Hy Hr1 Hr2 Heq.
  - rewrite append_nil_l in Heq.
    destruct y as [|d y]; [by rewrite append_nil_l in Heq|].
    exfalso. apply commaFree_cons in Hy as [Hd _].
    rewrite append_cons in Heq.
    destruct Hr1 as [-> | [more ->]]; [done|].
    rewrite comma_append in Heq. congruence.
  - destruct y as [|d y].
    + exfalso. apply commaFree_cons in Hx as [Hc _].
      rewrite append_cons, append_nil_l in Heq.
      destruct Hr2 as [-> | [more ->]]; [done|].
      rewrite comma_append in Heq. congruence.
    + rewrite !append_cons in Heq. injection Heq as -> Heq.
      apply commaFree_cons in Hx as [_ Hx].
      apply commaFree_cons in Hy as [_ Hy].
      destruct (IH y Hx Hy Hr1 Hr2 Heq) as [-> ->]. done.
Qed.

Lemma Array_join_cons (sep x : string) (xs : list string) :
  Array_join sep (x :: xs)
  = x +:+ match xs with [] => "" | _ => sep +:+ Array_join sep xs end.
Proof.
  destruct xs; simpl; [|done].
  induction x as [|c x IH]; [done|]. by rewrite append_cons, <- IH.
Qed.

Lemma join_comma_injective (xs ys : list string) :
  Forall commaFree xs -> Forall commaFree ys ->
  xs <> [] -> ys <> [] ->
  Array_join comma xs = Array_join comma ys -> xs = ys.
Proof.
  intros Hxs. revert ys.
  induction Hxs as [|x xs Hx Hxs IH]; intros ys Hys Hne1 Hne2 Heq; [done|].
  destruct Hys as [|y ys Hy Hys]; [done|].
  rewrite !Array_join_cons in Heq.
  apply field_unique in Heq as [-> Hrest]; [|done..| |].
  - f_equal. destruct xs as [|x' xs], ys as [|y' ys]; try done.
    rewrite !comma_append in Hrest. injection Hrest as Hrest.
    by apply IH.
  - destruct xs; [by left | right; by eexists].
  - destruct ys; [by left | right; by eexists].
Qed.

Lemma plainText_fields `{Host} (row : Row) :
  Forall plainText row -> Forall commaFree (List.map csvField row).
Proof.
  induction 1 as [|cell row (s & -> & Hs) _ IH]; simpl; [done|].
  constructor; [|done]. unfold commaFree in Hs. by rewrite Hs.
Qed.

Lemma plainText_injective `{Host} (r1 r2 : Row) :
  Forall plainText r1 -> Forall plainText r2 ->
  List.map csvField r1 = List.map csvField r2 -> r1 = r2.
Proof.
  intros Hr1. revert r2.
  induction Hr1 as [|c1 r1 (s1 & -> & Hs1) _ IH]; intros r2 Hr2 Heq.
  - by destruct r2.
  - destruct Hr2 as [|c2 r2 (s2 & -> & Hs2) Hr2]; [done|].
    simpl in Heq. unfold commaFree in Hs1, Hs2. rewrite Hs1, Hs2 in Heq.
    injection Heq as -> Heq. f_equal. by apply IH.
Qed.

(** X17: the line the CSV export writes for a row determines the row,
    for non-empty rows of text cells without a comma: two such rows with
    the same line are the same row. *)
Theorem csv_line_determines_the_row `{Host} (r1 r2 : Row) :
  Forall plainText r1 -> Forall plainText r2 ->
  r1 <> [] -> r2 <> [] ->
  csvLine r1 = csvLine r2 -> r1 = r2.
Proof.
  intros Hr1 Hr2 Hne1 Hne2 Hline.
  apply plainText_injective; [done..|].
  apply join_comma_injective; [by apply plainText_fields.. | | | done].
  - by destruct r1.
  - by destruct r2.
Qed.

Lemma csv_line_determines_the_row_witness :
  List.map CText ["2024-01-01"; "100"] = [CText "2024-01-01"; CText "100"].
Proof.
  apply (csv_line_determines_the_row (H := refHost));
    [ repeat constructor; eexists; (split; reflexivity)
    | repeat constructor; eexists; (split; reflexivity)
    | discriminate | discriminate | reflexivity ].
Defined.

(** X18: both exports follow the view: the CSV export is refused exactly
    when the view has no rows, and exactly then the PDF has no table;
    otherwise the PDF table has the displayed header and the rows of the
    first page of the table, the first ten rows of the view at most. *)
Theorem exports_follow_the_view `{Host} (st : State) :
  (exportToCSV st = None <-> filteredData st = [])
  /\ (pdfTable st = None <-> filteredData st = [])
  /\ (forall header rows,
        pdfTable st = Some (header, rows) ->
        header = displayedColumns st
        /\ rows = paginatedRows (filteredData st) 1
        /\ rows = take 10 (filteredData st)).
Proof.
  unfold exportToCSV, pdfTable. split_and!.
  - by destruct (filteredData st).
  - by destruct (filteredData st).
  - intros header rows Htable.
    destruct (0 <? length (filteredData st))%nat; [|done].
    injection Htable as <- <-. split_and!; [done..|].
    change (Array.slice (filteredData st) 0 10)
      with (paginatedRows (filteredData st) 1).
    by rewrite paginatedRows_take_drop.
Qed.

(** ** The upload *)

Lemma lastSegment_app (a b segment : string) :
  lastSegment (a +:+ b) segment = lastSegment b (lastSegment a segment).
Proof.
  revert segment. induction a as [|c a IH]; intros segment; [done|].
  rewrite append_cons. simpl. by destruct (Ascii.eqb c ".").
Qed.

Lemma append_nil_r (s : string) : s +:+ "" = s.
Proof. induction s as [|c s IH]; [done|]. by rewrite append_cons, IH. Qed.

Lemma lastSegment_dotFree (name segment : string) :
  dotFree name -> lastSegment name segment = segment +:+ name.
Proof.
  revert segment. induction name as [|c name IH]; intros segment Hname.
  - by rewrite append_nil_r.
  - apply includes_char_cons in Hname as [Hc Hname]. simpl.
    destruct (Ascii.eqb_spec c ".") as [->|_]; [done|].
    rewrite IH by done. by rewrite append_assoc.
Qed.

(** X19: the extension of a file name is the lower-cased text after its
    last dot, and the lower-cased name itself when the name has no dot. *)
Theorem file_extension_is_after_the_last_dot `{Host} (base ext : string) :
  dotFree ext ->
  fileExtension (base +:+ "." +:+ ext) = toLowerCase ext
  /\ fileExtension ext = toLowerCase ext.
Proof.
  intros Hext. unfold fileExtension.
  rewrite !lastSegment_app. simpl.
  by rewrite !lastSegment_dotFree.
Qed.

Lemma file_extension_is_after_the_last_dot_witness :
  fileExtension (H := refHost) ("sales.2024" +:+ "." +:+ "CSV") = "csv"
  /\ fileExtension (H := refHost) "CSV" = "csv".
Proof.
  apply (file_extension_is_after_the_last_dot (H := refHost) "sales.2024" "CSV").
  reflexivity.
Defined.

Lemma metricsEffect_setMetrics `{Host} (st : State) :
  exists m, metricsEffect st = setMetrics m st.
Proof.
  unfold metricsEffect. destruct (_ && _); simpl; [by eexists|].
  exists (metrics st). by destruct st.
Qed.

(** X20: the upload of a parsed file whose name has the extension csv
    or xlsx (and whose header cells are text) replaces the table and the
    header and selects every column, without an alert, while the filter
    text, the date range, the sort, the current page and the chart
    selection stay as they were.  Every other upload leaves the whole
    state as it was, silently when no file was chosen and with an alert
    otherwise: the alert of an unsupported file exactly for another
    extension, the alert of a read error exactly for an xlsx file that
    cannot be read, the alert of a parse error for a csv file that cannot
    be read or parsed and for an xlsx file that cannot be parsed. *)
Theorem upload_replaces_the_table_or_nothing `{Host}
    (file : option (string * FileContents)) (st : State) :
  (forall name header rows,
      file = Some (name, Parsed header rows) ->
      fileExtension name = "csv" \/ fileExtension name = "xlsx" ->
      (handleFileUpload file st).2 = None
      /\ data (handleFileUpload file st).1 = List.map CText header :: rows
      /\ columns (handleFileUpload file st).1 = header
      /\ selectedColumns (handleFileUpload file st).1 = header
      /\ displayedColumns (handleFileUpload file st).1 = header
      /\ filterText (handleFileUpload file st).1 = filterText st
      /\ dateRange (handleFileUpload file st).1 = dateRange st
      /\ sortColumn (handleFileUpload file st).1 = sortColumn st
      /\ sortDirection (handleFileUpload file st).1 = sortDirection st
      /\ currentPage (handleFileUpload file st).1 = currentPage st
      /\ selection (handleFileUpload file st).1 = selection st)
  /\ ((forall name header rows,
         file = Some (name, Parsed header rows) ->
         fileExtension name <> "csv" /\ fileExtension name <> "xlsx") ->
      (handleFileUpload file st).1 = st
      /\ (file = None <-> (handleFileUpload file st).2 = None))
  /\ (forall name contents,
        file = Some (name, contents) ->
        ((handleFileUpload file st).2 = Some UnsupportedFile
         <-> fileExtension name <> "csv" /\ fileExtension name <> "xlsx")
        /\ ((handleFileUpload file st).2 = Some ReadError
            <-> fileExtension name = "xlsx" /\ contents = Unreadable)
        /\ ((handleFileUpload file st).2 = Some ParseError
            <-> fileExtension name = "csv"
                /\ (contents = Unreadable \/ contents = Unparsable)
                \/ fileExtension name = "xlsx" /\ contents = Unparsable)).
Proof.
  assert (Hsuccess : forall header rows,
            let st' := upload (List.map CText header :: rows) header st in
            data st' = List.map CText header :: rows
            /\ columns st' = header /\ selectedColumns st' = header
            /\ displayedColumns st' = header
            /\ filterText st' = filterText st /\ dateRange st' = dateRange st
            /\ sortColumn st' = sortColumn st
            /\ sortDirection st' = sortDirection st
            /\ currentPage st' = currentPage st
            /\ selection st' = selection st).
  { intros header rows. unfold upload.
    destruct (metricsEffect_setMetrics
                (setTable (List.map CText header :: rows) header st))
      as [m ->].
    split_and!; try done.
    unfold displayedColumns. simpl. by destruct header. }
  split_and!.
  - intros name header rows -> Hextension. simpl.
    destruct (String.eqb_spec (fileExtension name) "csv") as [Hcsv|Hcsv].
    { split; [done|]. apply Hsuccess. }
    destruct Hextension as [?|Hxlsx]; [done|].
    rewrite Hxlsx. simpl. split; [done|]. apply Hsuccess.
  - intros Hfailed. destruct file as [[name contents]|]; [|done]. simpl.
    destruct (String.eqb_spec (fileExtension name) "csv") as [Hcsv|Hcsv].
    { destruct contents as [| |header rows]; try done.
      by destruct (Hfailed name header rows eq_refl) as [? _]. }
    destruct (String.eqb_spec (fileExtension name) "xlsx") as [Hxlsx|Hxlsx];
      [|done].
    destruct contents as [| |header rows]; try done.
    by destruct (Hfailed name header rows eq_refl) as [_ ?].
  - intros name contents ->. simpl.
    destruct (String.eqb_spec (fileExtension name) "csv") as [Hcsv|Hcsv].
    { rewrite Hcsv.
      destruct contents; simpl; split_and!; split; try done;
        try (by intros [? ?]); try (by intros [[_ [?|?]] | [? _]]);
        intros _; left; split; [done | by left | done | by right]. }
    destruct (String.eqb_spec (fileExtension name) "xlsx") as [Hxlsx|Hxlsx].
    { rewrite Hxlsx.
      destruct contents; simpl; split_and!; split; try done;
        try (by intros [? ?]); try (by intros [[? _] | [_ ?]]);
        intros _; by right. }
    split_and!; split; try done; try (by intros [? ?]);
      by intros [[? _] | [? _]].
Qed.

(** ** A page left behind by a shrinking view *)

(** X21: typing in the filter box never moves the current page.  When
    the view it leaves has fewer pages than the current page, the table
    body shows no row and no page button is the current page; as long as
    the view has rows there are buttons, the last page among them, and a
    click on one shows rows again. *)
Theorem filter_leaves_the_page_behind `{Host} (text : string) (st : State) :
  totalPages (filteredData (setFilterText text st)) < currentPage st ->
  currentPage (setFilterText text st) = currentPage st
  /\ tableRows (setFilterText text st) = []
  /\ (currentPage st ∉ pageButtons (setFilterText text st))
  /\ (filteredData (setFilterText text st) <> [] ->
      (totalPages (filteredData (setFilterText text st))
         ∈ pageButtons (setFilterText text st))
      /\ forall page st',
           clickPage page (setFilterText text st) = Some st' ->
           tableRows st' <> []).
Proof.
  set (view := setFilterText text st). intros Hstale.
  pose proof (totalPages_bounds (filteredData view)) as Hbounds.
  pose proof (totalPages_nonneg (filteredData view)) as Htotal.
  assert (Hcurrent : 1 <= currentPage view) by (simpl; lia).
  assert (Hbuttons : forall page,
            page ∈ pageButtons view ->
            1 <= page <= totalPages (filteredData view)).
  { intros page. unfold pageButtons.
    destruct (0 <? length (data view))%nat;
      [|by intros ?%elem_of_nil].
    by apply elem_of_visiblePages. }
  split_and!.
  - done.
  - unfold tableRows. rewrite paginatedRows_take_drop by done.
    rewrite drop_ge; [done|]. unfold rowsPerPage.
    change (currentPage view) with (currentPage st). lia.
  - intros Hin%Hbuttons. lia.
  - intros Hrows.
    assert (0 < length (filteredData view))%nat
      by (destruct (filteredData view); [done | simpl; lia]).
    pose proof (filteredData_length_le view). split.
    + unfold pageButtons.
      destruct (Nat.ltb_spec 0 (length (data view))); [|lia].
      rewrite visiblePages_range. apply elem_of_pageRange.
      change (currentPage view) with (currentPage st).
      destruct (Z.ltb_spec
                  (Z.min (totalPages (filteredData view))
                     (Z.max 1 (currentPage st - 2) + 4)
                   - Z.max 1 (currentPage st - 2)) 4); lia.
    + intros page st' Hclick. unfold clickPage in Hclick.
      destruct (decide (page ∈ pageButtons view)) as [Hpage%Hbuttons|];
        [|done].
      injection Hclick as <-. unfold tableRows.
      change (filteredData (setCurrentPage page view))
        with (filteredData view).
      pose proof (paginatedRows_length (filteredData view) page).
      simpl. destruct (paginatedRows (filteredData view) page); [|done].
      simpl in *. lia.
Qed.

Lemma filter_leaves_the_page_behind_witness :
  tableRows (H := refHost) (setFilterText "b" stateOnPage3) = []
  /\ filteredData (H := refHost) (setFilterText "b" stateOnPage3)
     = [[CText "b"]].
Proof.
  split.
  - apply (filter_leaves_the_page_behind (H := refHost) "b" stateOnPage3).
    vm_compute. reflexivity.
  - vm_compute. reflexivity.
Defined.

(** ** The theme of the [Header] component *)

(** X22: mounting the header always leaves the class [dark] of the
    document in agreement with the theme it shows.  The theme is the
    saved one when a non-empty theme is saved, and is then saved again;
    it is "light" when nothing or the empty text is saved, and also when
    the storage cannot be used, in which case the storage stays unused. *)
Theorem mount_shows_the_saved_theme (b : Theme.Browser) :
  Theme.darkClass (Theme.mount b).2 = Theme.isDark (Theme.mount b).1
  /\ (forall saved,
        Theme.storage b = Theme.Available (Some saved) -> saved <> "" ->
        (Theme.mount b).1 = saved
        /\ Theme.storage (Theme.mount b).2 = Theme.Available (Some saved))
  /\ (Theme.storage b = Theme.Available None
      \/ Theme.storage b = Theme.Available (Some "") ->
      (Theme.mount b).1 = "light"
      /\ Theme.storage (Theme.mount b).2 = Theme.Available (Some "light"))
  /\ (Theme.storage b = Theme.Unavailable ->
      (Theme.mount b).1 = "light"
      /\ Theme.storage (Theme.mount b).2 = Theme.Unavailable).
Proof.
  destruct b as [store dark]. unfold Theme.mount, Theme.loadEffect. simpl.
  split_and!.
  - destruct store as [|[saved|]]; simpl; [done | | done].
    destruct (JSString.truthy saved); simpl; [|done].
    by destruct (String.eqb_spec saved "light") as [->|].
  - intros saved -> Hsaved%truthy_nonempty. rewrite Hsaved.
    by destruct (String.eqb_spec saved "light") as [->|].
  - by intros [-> | ->].
  - by intros ->.
Qed.

(** X23: the toggle switches between "light" and "dark" (from any other
    theme it goes to "dark"), so two toggles bring a light or dark theme
    back.  With a usable storage the toggled theme survives a reload:
    mounting again shows it and leaves the browser as the toggle left
    it.  With an unusable storage a reload always shows "light". *)
Theorem toggled_theme_survives_a_reload (theme : string) (b : Theme.Browser) :
  ((Theme.handleThemeToggle theme b).1 = "light"
   \/ (Theme.handleThemeToggle theme b).1 = "dark")
  /\ (theme = "light" \/ theme = "dark" ->
      (Theme.handleThemeToggle (Theme.handleThemeToggle theme b).1
         (Theme.handleThemeToggle theme b).2).1 = theme)
  /\ (forall item,
        Theme.storage b = Theme.Available item ->
        Theme.mount (Theme.handleThemeToggle theme b).2
        = Theme.handleThemeToggle theme b)
  /\ (Theme.storage b = Theme.Unavailable ->
      (Theme.mount (Theme.handleThemeToggle theme b).2).1 = "light").
Proof.
  destruct b as [store dark]. unfold Theme.handleThemeToggle. simpl.
  split_and!.
  - destruct (Theme.isDark theme); [by left | by right].
  - by intros [-> | ->].
  - intros item ->. by destruct (Theme.isDark theme).
  - intros ->. by destruct (Theme.isDark theme).
Qed.
